(** * stencil-sass: a shallow embedding of [dist/index.js]

    The plugin's helper functions ([normalizePath], [getModuleId],
    [loadDiagnostic], [getRenderOptions]) are translated function by function.

    - A JavaScript string is the list of its UTF-16 code units ([list N]).
    - JavaScript numbers that occur here (line, column, status, indices) are
      integers and are modelled by [Z]; [undefined] is [None].
    - Objects and arrays that can be shared live in a heap of cells, and the
      functions that allocate or mutate them are written in a state and
      exception monad over that heap. *)

From Stdlib Require Import ZArith NArith Ascii String DecimalString Sorted.
From stdpp Require Import base list gmap strings.

Local Open Scope Z_scope.

(** ** JavaScript strings *)

Module JsString.

Abbreviation jsstring := (list N).

(** An ASCII literal of the source, as code units. *)
Definition lit (s : string) : jsstring :=
  N_of_ascii <$> list_ascii_of_string s.

(** [s.length] *)
Definition str_length (s : jsstring) : Z := Z.of_nat (length s).

(** [a === b] on strings *)
Fixpoint jsstring_eqb (a b : jsstring) : bool :=
  match a, b with
  | [], [] => true
  | x :: a', y :: b' => N.eqb x y && jsstring_eqb a' b'
  | _, _ => false
  end.

(** [s.charAt(i)]: the one-unit string at [i], or the empty string when
    [i] is out of range. *)
Definition charAt (s : jsstring) (i : Z) : jsstring :=
  if i <? 0 then []
  else match s !! Z.to_nat i with
       | Some c => [c]
       | None => []
       end.

(** [s.startsWith(p)] *)
Fixpoint startsWith (p s : jsstring) : bool :=
  match p, s with
  | [], _ => true
  | x :: p', y :: s' => N.eqb x y && startsWith p' s'
  | _ :: _, [] => false
  end.

(** [s.indexOf(c)] for a one-unit search string: the first index, or -1. *)
Fixpoint indexOf_from (c : N) (s : jsstring) (i : Z) : Z :=
  match s with
  | [] => -1
  | x :: s' => if N.eqb x c then i else indexOf_from c s' (i + 1)
  end.

Definition indexOf (s : jsstring) (c : N) : Z := indexOf_from c s 0.

(** [s.substring(a, b)]: both ends are clamped to [0, length] and swapped
    when out of order. *)
Definition clamp (s : jsstring) (z : Z) : Z := Z.max 0 (Z.min z (str_length s)).

Definition substring (s : jsstring) (a b : Z) : jsstring :=
  let a' := clamp s a in
  let b' := clamp s b in
  let lo := Z.min a' b' in
  let hi := Z.max a' b' in
  take (Z.to_nat (hi - lo)) (drop (Z.to_nat lo) s).

(** [s.substring(a)] *)
Definition substring_from (s : jsstring) (a : Z) : jsstring :=
  substring s a (str_length s).

(** White space and line terminators, as [String.prototype.trim] sees them. *)
Definition isWhiteSpace (c : N) : bool :=
  let z := Z.of_N c in
  (z =? 9) || (z =? 10) || (z =? 11) || (z =? 12) || (z =? 13) || (z =? 32)
  || (z =? 160) || (z =? 5760) || ((8192 <=? z) && (z <=? 8202))
  || (z =? 8232) || (z =? 8233) || (z =? 8239) || (z =? 8287)
  || (z =? 12288) || (z =? 65279).

Fixpoint trimStart (s : jsstring) : jsstring :=
  match s with
  | [] => []
  | c :: r => if isWhiteSpace c then trimStart r else s
  end.

Definition trimEnd (s : jsstring) : jsstring := rev (trimStart (rev s)).

(** [s.trim()] *)
Definition trim (s : jsstring) : jsstring := trimEnd (trimStart s).

(** [s.split(sep)] for a one-unit separator. The result is never empty. *)
Fixpoint split (sep : N) (s : jsstring) : list jsstring :=
  match s with
  | [] => [[]]
  | c :: r =>
      if N.eqb c sep then [] :: split sep r
      else match split sep r with
           | seg :: segs => (c :: seg) :: segs
           | [] => [[c]]
           end
  end.

(** [s.split(/\r?\n/)] *)
Fixpoint split_lines (s : jsstring) : list jsstring :=
  match s with
  | [] => [[]]
  | c :: r =>
      if N.eqb c 10 then [] :: split_lines r
      else
        match r with
        | d :: r' =>
            if N.eqb c 13 && N.eqb d 10 then [] :: split_lines r'
            else match split_lines r with
                 | seg :: segs => (c :: seg) :: segs
                 | [] => [[c]]
                 end
        | [] => [[c]]
        end
  end.

(** [xs.join(sep)] on an array of strings *)
Fixpoint join (sep : jsstring) (xs : list jsstring) : jsstring :=
  match xs with
  | [] => []
  | x :: r =>
      match r with
      | [] => x
      | _ :: _ => x ++ sep ++ join sep r
      end
  end.

(** [s.replace(pat, '')] for a string pattern: the first occurrence goes. *)
Fixpoint remove_first (pat s : jsstring) : jsstring :=
  if startsWith pat s then drop (length pat) s
  else match s with
       | [] => []
       | c :: r => c :: remove_first pat r
       end.

(** ASCII case folding, the only folding a [/i] regular expression without
    the [u] flag applies to the ASCII letters of a pattern. *)
Definition lower (c : N) : N :=
  if (65 <=? c)%N && (c <=? 90)%N then (c + 32)%N else c.

Definition endsWith_ci (suffix s : jsstring) : bool :=
  startsWith (rev (lower <$> suffix)) (rev (lower <$> s)).

(** [String(n)] for an integer [n] *)
Definition of_Z (z : Z) : jsstring := lit (NilZero.string_of_int (Z.to_int z)).

(** [arr.indexOf(x)] on an array of strings *)
Fixpoint array_indexOf_from (x : jsstring) (arr : list jsstring) (i : Z) : Z :=
  match arr with
  | [] => -1
  | y :: arr' => if jsstring_eqb y x then i else array_indexOf_from x arr' (i + 1)
  end.

Definition array_indexOf (arr : list jsstring) (x : jsstring) : Z :=
  array_indexOf_from x arr 0.

End JsString.
Import JsString.

(** ** [normalizePath] *)

(** [/^\\\\\?\\/]: the string starts with backslash, backslash, question
    mark, backslash. *)
Definition EXTENDED_PATH_REGEX_test (s : jsstring) : bool :=
  startsWith [92; 92; 63; 92]%N s.

(** [/[^\x00-\x80]+/]: some code unit lies above 0x80. *)
Definition NON_ASCII_REGEX_test (s : jsstring) : bool :=
  existsb (fun c => (128 <? c)%N) s.

(** [str.replace(/\\/g, '/')]: every backslash becomes a slash. *)
Definition slash_of (c : N) : N := if N.eqb c 92 then 47%N else c.

Definition replace_SLASH_REGEX (s : jsstring) : jsstring := slash_of <$> s.

(** The body of [normalizePath] for a string argument. *)
Definition normalizePath (str : jsstring) : jsstring :=
  let str := trim str in
  if EXTENDED_PATH_REGEX_test str || NON_ASCII_REGEX_test str then str
  else
    let str := replace_SLASH_REGEX str in
    if jsstring_eqb (charAt str (str_length str - 1)) (lit "/") then
      let colonIndex := indexOf str 58 in
      if colonIndex >? -1 then
        if colonIndex <? str_length str - 2
        then substring str 0 (str_length str - 1)
        else str
      else if str_length str >? 1
      then substring str 0 (str_length str - 1)
      else str
    else str.

(** ** [getModuleId] *)

Record ModuleRef := { moduleId : option jsstring; filePath : option jsstring }.

Definition getModuleId (orgImport : jsstring) : ModuleRef :=
  let orgImport :=
    if startsWith (lit "~") orgImport then substring_from orgImport 1
    else orgImport in
  let splt := split 47 orgImport in
  let m := {| moduleId := None; filePath := None |} in
  if startsWith (lit "@") orgImport && (Z.of_nat (length splt) >? 1) then
    let m := {| moduleId := Some (join (lit "/") (take 2 splt));
                filePath := filePath m |} in
    {| moduleId := moduleId m;
       filePath := Some (join (lit "/") (drop 2 splt)) |}
  else
    match splt !! 0%nat with
    | Some first =>
        {| moduleId := Some first;
           filePath := Some (join (lit "/") (drop 1 splt)) |}
    | None =>
        (* [splt[0]] would be [undefined]; [split] never returns [[]] *)
        {| moduleId := None;
           filePath := Some (join (lit "/") (drop 1 splt)) |}
    end.

(** ** [loadDiagnostic] *)

Definition STOP_CHARS : list jsstring :=
  [ []; [10%N]; [13%N]; [9%N]; lit " "; lit ":"; lit ";"; lit ","; lit "{";
    lit "}"; lit "."; lit "#"; lit "@"; lit "!"; lit "["; lit "]"; lit "(";
    lit ")"; lit "&"; lit "+"; lit "~"; lit "^"; lit "*"; lit "$" ].

(** [STOP_CHARS.indexOf(ch) > -1] *)
Definition isStop (ch : jsstring) : bool := array_indexOf STOP_CHARS ch >? -1.

(** One entry of [diagnostic.lines]. [text] is [None] where the source stores
    [undefined]; [errorCharStart] is [None] where it stores an [undefined]
    column. *)
Record PrintLine := {
  lineIndex : Z;
  lineNumber : Z;
  text : option jsstring;
  errorCharStart : option Z;
  errorLength : Z
}.

Record Diagnostic := {
  level : jsstring;
  type : jsstring;
  language : jsstring;
  header : jsstring;
  code : jsstring;
  relFilePath : option jsstring;
  absFilePath : option jsstring;
  messageText : jsstring;
  d_lineNumber : option Z;
  d_columnNumber : option Z;
  lines : list PrintLine
}.

(** The fields of a [LegacyException] the function reads. *)
Record LegacyException := {
  message : jsstring;
  status : option Z;
  file : option jsstring;
  line : option Z;
  column : option Z
}.

(** [context.sys]: both members are optional. *)
Record Sys := {
  sys_normalizePath : option (jsstring -> jsstring);
  sys_resolveModuleId_is_function : bool
}.

(** The plugin context. [fs_readFileSync] answers [inl text], or [inr e] when
    the read (or the [split] of what it returned) throws [e], given here as
    the text [e] prints as. [diagnostics] is the host's collection. *)
Record PluginCtx := {
  config_rootDir : jsstring;
  fs_readFileSync : jsstring -> jsstring + jsstring;
  sys : option Sys;
  diagnostics : list Diagnostic
}.

(** [context.diagnostics.push(d)] *)
Definition push_diagnostic (context : PluginCtx) (d : Diagnostic) : PluginCtx :=
  {| config_rootDir := config_rootDir context;
     fs_readFileSync := fs_readFileSync context;
     sys := sys context;
     diagnostics := diagnostics context ++ [d] |}.

Definition formatCode (input : option Z) : jsstring :=
  match input with
  | Some n => of_Z n
  | None => []
  end.

(** [input.split('╷')[0]]; the marker is the code unit U+2577. *)
Definition formatMessage (input : jsstring) : jsstring :=
  match split 9591 input with
  | first :: _ => first
  | [] => []
  end.

Definition formatFileName (rootDir fileName : jsstring) : jsstring :=
  match rootDir, fileName with
  | [], _ | _, [] => []
  | _, _ =>
      let fileName := remove_first rootDir fileName in
      let fileName :=
        if jsstring_eqb (charAt fileName 0) (lit "/")
           || jsstring_eqb (charAt fileName 0) (lit "\")
        then substring_from fileName 1
        else fileName in
      if str_length fileName >? 80
      then lit "..." ++ substring_from fileName (str_length fileName - 80)
      else fileName
  end.

(** [arr[i]] for an integer index; [None] is [undefined]. *)
Definition array_get {A} (arr : list A) (i : Z) : option A :=
  if i <? 0 then None else arr !! Z.to_nat i.

(** The first loop: [for (let i = start; i >= 0; i--)]. The counter is the
    natural number [i]; [start] is the current [errorCharStart]. *)
Fixpoint scanBackward (text : jsstring) (i : nat) (start : Z) : Z :=
  if isStop (charAt text (Z.of_nat i)) then start
  else match i with
       | O => 0
       | S i' => scanBackward text i' (Z.of_nat i)
       end.

(** The second loop: [for (let j = start; j <= text.length; j++)], with
    [n] the number of values of [j] left to visit. *)
Fixpoint scanForward (text : jsstring) (n : nat) (j : Z) (len : Z) : Z :=
  match n with
  | O => len
  | S n' =>
      if isStop (charAt text j) then len
      else scanForward text n' (j + 1) (len + 1)
  end.

(** The span of the error line, lines 51 to 69 of the source: the pair
    ([errorCharStart], [errorLength]). *)
Definition errorSpan (text : jsstring) (column : option Z) : option Z * Z :=
  match column with
  | None => (None, 0)
  | Some c =>
      let start := if c >=? 0 then scanBackward text (Z.to_nat c) c else c in
      let len := scanForward text (Z.to_nat (str_length text - start + 1)) start 0 in
      if (len =? 0) && (start >? 0) then (Some (start - 1), 1)
      else (Some start, len)
  end.

(** The body of the [try] block once the file has been read and split. *)
Definition contextLines (srcLines : list jsstring)
    (errorLineNumber errorLineIndex : Z) (column : option Z) : list PrintLine :=
  let text := default [] (array_get srcLines errorLineIndex) in
  let span := errorSpan text column in
  let errorLine :=
    {| lineIndex := errorLineIndex;
       lineNumber := errorLineNumber;
       text := Some text;
       errorCharStart := fst span;
       errorLength := snd span |} in
  let lines := [errorLine] in
  let lines :=
    if lineIndex errorLine >? 0 then
      let previousLine :=
        {| lineIndex := lineIndex errorLine - 1;
           lineNumber := lineNumber errorLine - 1;
           text := array_get srcLines (lineIndex errorLine - 1);
           errorCharStart := Some (-1);
           errorLength := -1 |} in
      previousLine :: lines
    else lines in
  if lineIndex errorLine + 1 <? Z.of_nat (length srcLines) then
    let nextLine :=
      {| lineIndex := lineIndex errorLine + 1;
         lineNumber := lineNumber errorLine + 1;
         text := array_get srcLines (lineIndex errorLine + 1);
         errorCharStart := Some (-1);
         errorLength := -1 |} in
    lines ++ [nextLine]
  else lines.

(** What a call leaves behind: the returned value ([None] is [null]), the
    context with its diagnostics collection, and the lines written with
    [console.error]. *)
Record LoadResult := {
  returned : option Diagnostic;
  context_after : option PluginCtx;
  console_error : list jsstring
}.

(** Lines 32 to 34: the error's own file wins unless it is missing or
    the placeholder "stdin". *)
Definition errorFilePath (sassError : LegacyException)
    (filePath : option jsstring) : option jsstring :=
  match file sassError with
  | Some f => if negb (jsstring_eqb f (lit "stdin")) then Some f else filePath
  | None => filePath
  end.

(** Lines 21 to 96: the diagnostic as it stands when it is pushed, and what
    the [catch] block printed. *)
Definition diagnosticOf (context : PluginCtx) (sassError : LegacyException)
    (filePath : option jsstring) : Diagnostic * list jsstring :=
  match errorFilePath sassError filePath with
  | Some filePath =>
      let with_lines (ls : list PrintLine) :=
        {| level := lit "error";
           type := lit "css";
           language :=
             if endsWith_ci (lit ".scss") filePath then lit "scss" else lit "sass";
           header := lit "sass error";
           code := formatCode (status sassError);
           relFilePath := Some (formatFileName (config_rootDir context) filePath);
           absFilePath := Some filePath;
           messageText := formatMessage (message sassError);
           d_lineNumber := line sassError;
           d_columnNumber := column sassError;
           lines := ls |} in
      match line sassError with
      | Some errorLineNumber =>
          let errorLineIndex := errorLineNumber - 1 in
          if errorLineIndex >? -1 then
            match fs_readFileSync context filePath with
            | inl sourceText =>
                let srcLines := split_lines sourceText in
                (with_lines (contextLines srcLines errorLineNumber
                               errorLineIndex (column sassError)), [])
            | inr e =>
                (with_lines [], [lit "StyleSassPlugin loadDiagnostic, " ++ e])
            end
          else (with_lines [], [])
      | None => (with_lines [], [])
      end
  | None =>
      ({| level := lit "error";
          type := lit "css";
          language := lit "scss";
          header := lit "sass error";
          code := formatCode (status sassError);
          relFilePath := None;
          absFilePath := None;
          messageText := formatMessage (message sassError);
          d_lineNumber := None;
          d_columnNumber := None;
          lines := [] |}, [])
  end.

Definition loadDiagnostic (context : option PluginCtx)
    (sassError : option LegacyException) (filePath : option jsstring)
    : LoadResult :=
  match sassError, context with
  | Some sassError, Some context =>
      let diagnostic := fst (diagnosticOf context sassError filePath) in
      {| returned := Some diagnostic;
         context_after := Some (push_diagnostic context diagnostic);
         console_error := snd (diagnosticOf context sassError filePath) |}
  | _, _ =>
      {| returned := None; context_after := context; console_error := [] |}
  end.

(** ** Heap of objects and arrays *)

Module Heap.

Abbreviation loc := nat.

(** Function values are opaque: the functions a user supplies are told
    apart by a number; [ModuleImporter] is the importer closure that
    [getRenderOptions] creates. *)
Inductive func :=
| UserFn (id : nat)
| ModuleImporter.

Inductive val :=
| VUndefined
| VNull
| VBool (b : bool)
| VNum (n : Z)
| VStr (s : jsstring)
| VFun (f : func)
| VRef (l : loc).

(** A plain object (own enumerable properties) or a dense array. *)
Inductive cell :=
| Obj (props : gmap string val)
| Arr (items : list val).

Abbreviation heap := (list cell).

Inductive error :=
| TypeError (what : string)
| JsError (message : string)
| NotAnObject.

Inductive outcome (A : Type) :=
| Ok (a : A)
| Throw (e : error).
Global Arguments Ok {A} a.
Global Arguments Throw {A} e.

(** State and exception monad: a thrown error keeps the heap reached. *)
Definition M (A : Type) : Type := heap -> outcome A * heap.

Definition ret {A} (a : A) : M A := fun h => (Ok a, h).

Definition bind {A B} (m : M A) (f : A -> M B) : M B :=
  fun h =>
    match m h with
    | (Ok a, h') => f a h'
    | (Throw e, h') => (Throw e, h')
    end.

Definition throw {A} (e : error) : M A := fun h => (Throw e, h).

(** Lift a computation that only reads the heap. *)
Definition reading {A} (f : heap -> outcome A) : M A := fun h => (f h, h).

(** A new cell goes to the end of the heap. *)
Definition alloc (c : cell) : M loc := fun h => (Ok (length h), h ++ [c]).

Definition read (l : loc) : M (option cell) := fun h => (Ok (h !! l), h).

Definition write (l : loc) (c : cell) : M unit := fun h => (Ok tt, <[l := c]> h).

End Heap.
Import Heap.

Notation "x <- m ;; k" := (bind m (fun x => k))
  (at level 100, m at next level, right associativity, only parsing).
Notation "m ;;; k" := (bind m (fun _ => k))
  (at level 100, right associativity, only parsing).

(** [normalizePath] as JavaScript calls it: an argument that is not a string
    makes it throw. *)
Definition normalizePath_call (str : val) : outcome jsstring :=
  match str with
  | VStr s => Ok (normalizePath s)
  | _ => Throw (JsError "invalid path to normalize")
  end.

(** *** Operations on objects *)

(** [o.k] on a plain object; a missing property reads as [undefined]. *)
Definition get_prop (o : loc) (k : string) : M val :=
  c <- read o ;;
  match c with
  | Some (Obj props) => ret (default VUndefined (props !! k))
  | _ => ret VUndefined
  end.

(** [o.k = v] *)
Definition set_prop (o : loc) (k : string) (v : val) : M unit :=
  c <- read o ;;
  match c with
  | Some (Obj props) => write o (Obj (<[k := v]> props))
  | _ => ret tt
  end.

(** [delete o.k] *)
Definition delete_prop (o : loc) (k : string) : M unit :=
  c <- read o ;;
  match c with
  | Some (Obj props) => write o (Obj (delete k props))
  | _ => ret tt
  end.

(** [Object.assign(target, source)] for plain objects: the properties of
    [source] overwrite those of [target]. *)
Definition object_assign (target source : loc) : M unit :=
  s <- read source ;;
  t <- read target ;;
  match s, t with
  | Some (Obj sprops), Some (Obj tprops) => write target (Obj (sprops ∪ tprops))
  | _, _ => throw NotAnObject
  end.

(** *** Operations on arrays *)

(** [Array.isArray(v)], with the items when it holds. *)
Definition as_array (v : val) : M (option (list val)) :=
  match v with
  | VRef l =>
      c <- read l ;;
      match c with
      | Some (Arr items) => ret (Some items)
      | _ => ret None
      end
  | _ => ret None
  end.

(** [v.push(x1, ..., xn)] *)
Definition array_push (v : val) (xs : list val) : M unit :=
  match v with
  | VRef l =>
      c <- read l ;;
      match c with
      | Some (Arr items) => write l (Arr (items ++ xs))
      | _ => throw (TypeError "push is not a function")
      end
  | _ => throw (TypeError "push is not a function")
  end.

(** The callback of a [map], run on each item in turn; the first throw wins. *)
Fixpoint map_items {A B} (f : A -> outcome B) (items : list A) : outcome (list B) :=
  match items with
  | [] => Ok []
  | x :: r =>
      match f x with
      | Ok y =>
          match map_items f r with
          | Ok ys => Ok (y :: ys)
          | Throw e => Throw e
          end
      | Throw e => Throw e
      end
  end.

(** [v.map(f)]: a new array. The callbacks of this program only read the
    heap, so [f] gets the heap as it is when [map] is called. *)
Definition array_map (f : heap -> val -> outcome val) (v : val) : M val :=
  items <- as_array v ;;
  match items with
  | Some items =>
      mapped <- reading (fun h => map_items (f h) items) ;;
      l <- alloc (Arr mapped) ;;
      ret (VRef l)
  | None => throw (TypeError "map is not a function")
  end.

(** The code points of a string, as the string iterator yields them. *)
Fixpoint code_points (s : jsstring) : list jsstring :=
  match s with
  | [] => []
  | c :: r =>
      match r with
      | d :: r' =>
          if (55296 <=? c)%N && (c <=? 56319)%N && (56320 <=? d)%N && (d <=? 57343)%N
          then [c; d] :: code_points r'
          else [c] :: code_points r
      | [] => [[c]]
      end
  end.

(** [[...v]]: the items an iterable yields; other values are not iterable. *)
Definition spread (v : val) : M (list val) :=
  match v with
  | VRef l =>
      c <- read l ;;
      match c with
      | Some (Arr items) => ret items
      | _ => throw (TypeError "not iterable")
      end
  | VStr s => ret (VStr <$> code_points s)
  | _ => throw (TypeError "not iterable")
  end.

(** ** [getRenderOptions] *)

(** The four functions of [node:path] the plugin calls. *)
Record NodePath := {
  path_dirname : jsstring -> jsstring;
  path_isAbsolute : jsstring -> bool;
  path_resolve : jsstring -> jsstring -> jsstring;
  path_join : jsstring -> jsstring -> jsstring
}.

Section RenderOptions.

Variable path : NodePath.

(** The callback of [renderOpts.includePaths.map]. [path.isAbsolute]
    throws on an argument that is not a string. *)
Definition absoluteIncludePath (context : PluginCtx) (includePath : val) : outcome val :=
  match includePath with
  | VStr p =>
      if path_isAbsolute path p then Ok (VStr p)
      else Ok (VStr (path_resolve path (config_rootDir context) p))
  | _ => Throw (TypeError "The path argument must be of type string")
  end.

(** The callback of [injectGlobalPaths.map]; it reads
    [renderOpts.indentedSyntax]. *)
Definition importStatement (context : PluginCtx) (renderOpts : loc)
    (h : heap) (injectGlobalPath : val) : outcome val :=
  match injectGlobalPath with
  | VStr p =>
      let p :=
        if negb (path_isAbsolute path p) then
          match sys context with
          | Some {| sys_normalizePath := Some host_normalizePath |} =>
              host_normalizePath (path_join path (config_rootDir context) p)
          | _ => normalizePath (path_join path (config_rootDir context) p)
          end
        else p in
      let importTerminator :=
        match fst (get_prop renderOpts "indentedSyntax" h) with
        | Ok (VBool true) => [10%N]
        | _ => lit ";"
        end in
      Ok (VStr (lit "@import " ++ [34%N] ++ p ++ [34%N] ++ importTerminator))
  | _ => Throw (TypeError "The path argument must be of type string")
  end.

(** [arr.join('')] on an array of strings *)
Definition join_strings (items : list val) : jsstring :=
  join [] ((fun v => match v with VStr s => s | _ => [] end) <$> items).

Definition sys_has_resolveModuleId (context : PluginCtx) : bool :=
  match sys context with
  | Some s => sys_resolveModuleId_is_function s
  | None => false
  end.

(** [Object.assign(Object.assign({}, opts), { data: sourceText })] *)
Definition copyOptions (opts : loc) (sourceText : jsstring) : M loc :=
  renderOpts <- alloc (Obj ∅) ;;
  object_assign renderOpts opts ;;;
  dataObj <- alloc (Obj {[ "data" := VStr sourceText ]}) ;;
  object_assign renderOpts dataObj ;;;
  ret renderOpts.

(** Lines 201 to 211: copy [opts.includePaths], push the directory of the
    file, make every entry absolute. *)
Definition resolveIncludePaths (renderOpts opts : loc) (fileName : jsstring)
    (context : PluginCtx) : M unit :=
  userPaths <- get_prop opts "includePaths" ;;
  userItems <- as_array userPaths ;;
  copy <- alloc (Arr (default [] userItems)) ;;
  set_prop renderOpts "includePaths" (VRef copy) ;;;
  current <- get_prop renderOpts "includePaths" ;;
  array_push current [VStr (path_dirname path fileName)] ;;;
  current <- get_prop renderOpts "includePaths" ;;
  mapped <- array_map (fun _ => absoluteIncludePath context) current ;;
  set_prop renderOpts "includePaths" mapped.

(** Lines 214 to 236: copy [opts.injectGlobalPaths] and prepend one import
    statement per entry to [renderOpts.data]. *)
Definition injectGlobals (renderOpts opts : loc) (context : PluginCtx) : M unit :=
  userGlobals <- get_prop opts "injectGlobalPaths" ;;
  globalItems <- as_array userGlobals ;;
  injectGlobalPaths <- alloc (Arr (default [] globalItems)) ;;
  if Z.of_nat (length (default [] globalItems)) >? 0 then
    statements <- array_map (importStatement context renderOpts)
                    (VRef injectGlobalPaths) ;;
    items <- as_array statements ;;
    data <- get_prop renderOpts "data" ;;
    set_prop renderOpts "data"
      (VStr (join_strings (default [] items)
             ++ match data with VStr d => d | _ => [] end))
  else ret tt.

(** Lines 241 to 293: the user's importers, then the module importer. *)
Definition installImporter (renderOpts : loc) (context : PluginCtx) : M unit :=
  if sys_has_resolveModuleId context then
    importers <- alloc (Arr []) ;;
    userImporter <- get_prop renderOpts "importer" ;;
    (match userImporter with
     | VFun _ => array_push (VRef importers) [userImporter]
     | _ =>
         items <- as_array userImporter ;;
         match items with
         | Some items => array_push (VRef importers) items
         | None => ret tt
         end
     end) ;;;
    array_push (VRef importers) [VFun ModuleImporter] ;;;
    set_prop renderOpts "importer" (VRef importers)
  else ret tt.

(** Line 294: [[...(renderOpts.silenceDeprecations ?? []), 'legacy-js-api']] *)
Definition silenceLegacyApi (renderOpts : loc) : M unit :=
  _a <- get_prop renderOpts "silenceDeprecations" ;;
  iterable <-
    (match _a with
     | VUndefined | VNull => l <- alloc (Arr []) ;; ret (VRef l)
     | _ => ret _a
     end) ;;
  items <- spread iterable ;;
  silenced <- alloc (Arr (items ++ [VStr (lit "legacy-js-api")])) ;;
  set_prop renderOpts "silenceDeprecations" (VRef silenced).

Definition getRenderOptions (opts : loc) (sourceText fileName : jsstring)
    (context : PluginCtx) : M loc :=
  renderOpts <- copyOptions opts sourceText ;;
  set_prop renderOpts "indentedSyntax"
    (VBool (endsWith_ci (lit ".sass") fileName)) ;;;
  resolveIncludePaths renderOpts opts fileName context ;;;
  injectGlobals renderOpts opts context ;;;
  delete_prop renderOpts "injectGlobalPaths" ;;;
  delete_prop renderOpts "file" ;;;
  installImporter renderOpts context ;;;
  silenceLegacyApi renderOpts ;;;
  ret renderOpts.

End RenderOptions.

(** ** Predicates and functions of the statements *)

(** A string that does not start with white space. *)
Definition no_ws_head (s : jsstring) : Prop :=
  match s with
  | [] => True
  | c :: _ => isWhiteSpace c = false
  end.

(** A path of ASCII characters only. *)
Definition is_ascii (s : jsstring) : bool := forallb (fun c => (c <? 128)%N) s.

(** The index of the first colon of a path. *)
Definition first_colon (t : jsstring) : option nat :=
  fst <$> list_find (fun c => c = 58%N) t.

(** The trailing-slash rule on a backslash-converted path: the slash stays
    when the first colon sits within two characters of the end, and when
    the path is the root "/" alone; otherwise it goes. *)
Definition keeps_trailing_slash (t : jsstring) : bool :=
  match first_colon t with
  | Some k => bool_decide (length t <= k + 2)%nat
  | None => bool_decide (t = lit "/")
  end.

Definition strip_trailing_slash (t : jsstring) : jsstring :=
  if bool_decide (last t = Some 47%N)
  then if keeps_trailing_slash t then t else removelast t
  else t.

(** *** Reading the heap *)

(** What [o.k] reads in heap [h]. *)
Definition prop_of (h : heap) (o : loc) (k : string) : val :=
  match h !! o with
  | Some (Obj props) => default VUndefined (props !! k)
  | _ => VUndefined
  end.

(** The items of [v] in heap [h] when [v] is an array. *)
Definition array_items (h : heap) (v : val) : option (list val) :=
  match v with
  | VRef l =>
      match h !! l with
      | Some (Arr items) => Some items
      | _ => None
      end
  | _ => None
  end.

(** What spreading [v] yields in heap [h]. *)
Definition spread_in (h : heap) (v : val) : outcome (list val) :=
  match v with
  | VRef l =>
      match h !! l with
      | Some (Arr items) => Ok items
      | _ => Throw (TypeError "not iterable")
      end
  | VStr s => Ok (VStr <$> code_points s)
  | _ => Throw (TypeError "not iterable")
  end.

(** [v == null] *)
Definition nullish (v : val) : bool :=
  match v with
  | VUndefined | VNull => true
  | _ => false
  end.

Definition is_VStr (v : val) : bool :=
  match v with
  | VStr _ => true
  | _ => false
  end.

(** What the plugin needs of [includePaths] and [injectGlobalPaths]
    ([string[]] in [PluginOptions]): a value that is an array holds strings
    only. Any other value is ignored by the code. A reference points into the
    heap. *)
Definition optional_string_array (h : heap) (v : val) : bool :=
  match v with
  | VRef l =>
      match h !! l with
      | Some (Arr items) => forallb is_VStr items
      | Some (Obj _) => true
      | None => false
      end
  | _ => true
  end.

(** What the plugin needs of [silenceDeprecations]: missing, null or an
    array. *)
Definition optional_array (h : heap) (v : val) : bool :=
  match v with
  | VUndefined | VNull => true
  | _ =>
      match array_items h v with
      | Some _ => true
      | None => false
      end
  end.

(** The options at [opts] are an object whose fields have the types the
    plugin relies on. *)
Definition well_typed_options (h : heap) (opts : loc) : bool :=
  match h !! opts with
  | Some (Obj _) =>
      optional_string_array h (prop_of h opts "includePaths")
      && optional_string_array h (prop_of h opts "injectGlobalPaths")
      && optional_array h (prop_of h opts "silenceDeprecations")
  | _ => false
  end.

(** How many entries of a list are the string "legacy-js-api". *)
Fixpoint count_legacy (items : list val) : nat :=
  match items with
  | [] => 0%nat
  | VStr s :: r =>
      if jsstring_eqb s (lit "legacy-js-api") then S (count_legacy r)
      else count_legacy r
  | _ :: r => count_legacy r
  end.

(** The user's [silenceDeprecations] list, empty when the field is missing. *)
Definition user_silenceDeprecations (h : heap) (opts : loc) : list val :=
  default [] (array_items h (prop_of h opts "silenceDeprecations")).

(** Splitting a module specifier, as the specification words it: drop a
    leading "~", split on "/"; a scoped specifier (leading "@", at least two
    segments) keeps its first two segments as the module id. *)
Definition splitModuleSpecifier (spec : jsstring) : ModuleRef :=
  let rest :=
    match spec with
    | c :: r => if (c =? 126)%N then r else spec
    | [] => []
    end in
  let scoped := match rest with c :: _ => (c =? 64)%N | [] => false end in
  match split 47 rest with
  | a :: b :: more =>
      if scoped
      then {| moduleId := Some (a ++ lit "/" ++ b);
              filePath := Some (join (lit "/") more) |}
      else {| moduleId := Some a;
              filePath := Some (join (lit "/") (b :: more)) |}
  | [a] => {| moduleId := Some a; filePath := Some [] |}
  | [] => {| moduleId := Some []; filePath := Some [] |}
  end.

(** ** Sample inputs *)

(** [node:path] on POSIX for the paths of the examples below: a root and a
    file name that are absolute, without "." or ".." segments, doubled or
    trailing slashes, and relative entries that are plain names. *)
Definition posix_path : NodePath :=
  {| path_dirname := fun p =>
       let segs := split 47 p in
       join (lit "/") (take (length segs - 1) segs);
     path_isAbsolute := startsWith (lit "/");
     path_resolve := fun root p => root ++ lit "/" ++ p;
     path_join := fun root p => root ++ lit "/" ++ p |}.

(** A project rooted at /proj with one style sheet, /proj/src/a.scss, of
    three lines. *)
Definition red_scss : jsstring :=
  lit "a {" ++ [10%N] ++ lit "  color: red;" ++ [10%N] ++ lit "}".

Definition sample_ctx : PluginCtx :=
  {| config_rootDir := lit "/proj";
     fs_readFileSync := fun p =>
       if jsstring_eqb p (lit "/proj/src/a.scss")
       then inl red_scss
       else inr (lit "Error: ENOENT: no such file or directory");
     sys := Some {| sys_normalizePath := Some normalizePath;
                    sys_resolveModuleId_is_function := true |};
     diagnostics := [] |}.

(** User options with every field the plugin looks at, at location 0. *)
Definition sample_heap : heap :=
  [ Obj {[ "includePaths" := VRef 1%nat; "injectGlobalPaths" := VRef 2%nat;
           "file" := VStr (lit "x.scss"); "importer" := VFun (UserFn 0);
           "silenceDeprecations" := VRef 3%nat ]};
    Arr [VStr (lit "styles")];
    Arr [VStr (lit "globals.scss")];
    Arr [VStr (lit "legacy-js-api")] ].

Definition sample_error (l c : Z) : LegacyException :=
  {| message := lit "expected expression"; status := Some 1; file := None;
     line := Some l; column := Some c |}.

(** ** The rest of the plugin *)

(** *** [usePlugin] and [createResultsId] *)

(** [/(\.scss|\.sass)$/i.test(fileName)] for a string, [false] for any other
    value. *)
Definition usePlugin (fileName : val) : bool :=
  match fileName with
  | VStr f => endsWith_ci (lit ".scss") f || endsWith_ci (lit ".sass") f
  | _ => false
  end.

(** [pathParts[pathParts.length - 1] = 'css']: [split] returns at least one
    part, so the index is that of the last part. *)
Definition createResultsId (fileName : jsstring) : jsstring :=
  let pathParts := split 46 fileName in
  let pathParts := <[(length pathParts - 1)%nat := lit "css"]> pathParts in
  join (lit ".") pathParts.

(** *** The module importer

    The closure that [getRenderOptions] pushes last onto [importers]
    (lines 256 to 290). It calls [done] at once, or asks the host's
    [resolveModuleId] and calls [done] from the handlers of the promise it
    gets back; the handlers are kept as a function of how the promise
    settles. *)

(** An argument of [done]. *)
Inductive DoneArg :=
| DoneNull
| DoneFile (file : jsstring)
| DoneError (err : jsstring).

(** How the promise of [resolveModuleId] settles: fulfilled with an object
    that may carry [pkgDirPath], or rejected. *)
Inductive Settled :=
| Fulfilled (pkgDirPath : option jsstring)
| Rejected (err : jsstring).

(** The argument of [resolveModuleId]. *)
Record ModuleQuery := {
  query_moduleId : jsstring;
  query_containingFile : option jsstring
}.

Inductive ImporterRun :=
| Returned (calls : list DoneArg)
| Pending (query : ModuleQuery) (on_settled : Settled -> list DoneArg).

(** The [then] and [catch] handlers of lines 267 to 280. A call of
    [context.sys.normalizePath] that is not a function throws inside [then],
    which [catch] passes to [done]. *)
Definition importerHandlers (path : NodePath) (context : PluginCtx)
    (m : ModuleRef) (settled : Settled) : list DoneArg :=
  match settled with
  | Fulfilled (Some (c :: dir)) =>
      let resolvedPath := path_join path (c :: dir) (default [] (filePath m)) in
      match sys context with
      | Some {| sys_normalizePath := Some host_normalizePath |} =>
          [DoneFile (host_normalizePath resolvedPath)]
      | _ => [DoneError (lit "TypeError: context.sys.normalizePath is not a function")]
      end
  | Fulfilled _ => [DoneNull]
  | Rejected err => [DoneError err]
  end.

Definition moduleImporter (path : NodePath) (context : PluginCtx) (url : val)
    : ImporterRun :=
  match url with
  | VStr url =>
      if startsWith (lit "~") url then
        let m := getModuleId url in
        match moduleId m with
        | Some (c :: mid) =>
            Pending {| query_moduleId := c :: mid;
                       query_containingFile := filePath m |}
              (importerHandlers path context m)
        | _ => Returned [DoneNull]
        end
      else Returned [DoneNull]
  | _ => Returned [DoneNull]
  end.

(** *** Functions of the statements below *)

(** The specifier without its leading "~" (lines 344 to 346). *)
Definition specifierRemainder (orgImport : jsstring) : jsstring :=
  if startsWith (lit "~") orgImport then substring_from orgImport 1
  else orgImport.

(** The strings of an array of strings. *)
Definition strings_of (items : list val) : list jsstring :=
  (fun v => match v with VStr s => s | _ => [] end) <$> items.

(** One import statement, for a path of [injectGlobalPaths]. *)
Definition importLine (path : NodePath) (context : PluginCtx)
    (indentedSyntax : bool) (p : jsstring) : jsstring :=
  let p :=
    if path_isAbsolute path p then p
    else
      match sys context with
      | Some {| sys_normalizePath := Some host_normalizePath |} =>
          host_normalizePath (path_join path (config_rootDir context) p)
      | _ => normalizePath (path_join path (config_rootDir context) p)
      end in
  lit "@import " ++ [34%N] ++ p ++ [34%N]
  ++ (if indentedSyntax then [10%N] else lit ";").

(** An entry of [includePaths], made absolute. *)
Definition absolutePath (path : NodePath) (context : PluginCtx) (p : jsstring)
    : jsstring :=
  if path_isAbsolute path p then p
  else path_resolve path (config_rootDir context) p.

(** The importers the user supplied: one function, or the items of an
    array. *)
Definition user_importers (h : heap) (v : val) : list val :=
  match v with
  | VFun f => [VFun f]
  | _ => default [] (array_items h v)
  end.

(** The seven properties [getRenderOptions] sets or deletes. *)
Definition managed_keys : list string :=
  ["data"; "indentedSyntax"; "includePaths"; "injectGlobalPaths"; "file";
   "importer"; "silenceDeprecations"].


(** A line without a line feed or a carriage return. *)
Definition plain_line (l : jsstring) : Prop := ~ In 10%N l /\ ~ In 13%N l.

(** A value that is no dangling reference in heap [h]. *)
Definition allocated (h : heap) (v : val) : bool :=
  match v with
  | VRef l => bool_decide (l < length h)%nat
  | _ => true
  end.

(** What [r.k] reads for the object [r] that a call returned; nothing when
    the call threw. *)
Definition result_prop (r : outcome loc * heap) (k : string) : option val :=
  match fst r with
  | Ok ro => Some (prop_of (snd r) ro k)
  | Throw _ => None
  end.

(** The items of the array [r.k] of the object [r] that a call returned. *)
Definition result_items (r : outcome loc * heap) (k : string) : option (list val) :=
  match fst r with
  | Ok ro => array_items (snd r) (prop_of (snd r) ro k)
  | Throw _ => None
  end.

(** *** Further samples *)

(** Options with a Sass option the plugin does not look at, and a [data] of
    the user's own. *)
Definition styled_heap : heap :=
  [ Obj {[ "outputStyle" := VStr (lit "compressed");
           "data" := VStr (lit "ignored") ]} ].

(** Options whose [injectGlobalPaths] holds a number. *)
Definition untyped_heap : heap :=
  [ Obj {[ "injectGlobalPaths" := VRef 1%nat ]};
    Arr [VStr (lit "globals.scss"); VNum 1] ].

(** The sample project on a host without [sys]. *)
Definition bare_ctx : PluginCtx :=
  {| config_rootDir := config_rootDir sample_ctx;
     fs_readFileSync := fs_readFileSync sample_ctx;
     sys := None;
     diagnostics := [] |}.

(** * Properties *)

(** ** Strings *)

Lemma jsstring_eqb_eq (a b : jsstring) : jsstring_eqb a b = true <-> a = b.
Proof.
  revert b; induction a as [|x a IH]; intros [|y b]; simpl; try easy.
  rewrite andb_true_iff, N.eqb_eq, IH. split.
  - intros [-> ->]; reflexivity.
  - intros [= -> ->]; auto.
Qed.

Lemma charAt_last (t : jsstring) :
  charAt t (str_length t - 1) = match last t with Some c => [c] | None => [] end.
Proof.
  unfold charAt, str_length. destruct t as [|x t]; [reflexivity|].
  rewrite last_lookup.
  replace (Z.to_nat (Z.of_nat (length (x :: t)) - 1)) with (pred (length (x :: t)))
    by (simpl; lia).
  destruct (Z.ltb_spec (Z.of_nat (length (x :: t)) - 1) 0) as [H|H]; [simpl in H; lia|].
  reflexivity.
Qed.

Lemma ends_with_slash_decide (t : jsstring) :
  jsstring_eqb (charAt t (str_length t - 1)) (lit "/")
  = bool_decide (last t = Some 47%N).
Proof.
  rewrite charAt_last. change (lit "/") with [47%N].
  destruct (last t) as [c|]; cbn [jsstring_eqb].
  - rewrite andb_true_r. destruct (N.eqb_spec c 47) as [->|Hne].
    + rewrite bool_decide_eq_true_2; reflexivity.
    + rewrite bool_decide_eq_false_2; [reflexivity|]. intros [= ?]; contradiction.
  - rewrite bool_decide_eq_false_2; [reflexivity|discriminate].
Qed.

Lemma indexOf_from_find (c : N) (t : jsstring) (i : Z) :
  indexOf_from c t i
  = match list_find (fun x => x = c) t with
    | Some (k, _) => i + Z.of_nat k
    | None => -1
    end.
Proof.
  revert i; induction t as [|x t IH]; intros i; simpl; [reflexivity|].
  destruct (N.eqb_spec x c) as [->|Hne].
  - rewrite decide_True by reflexivity. simpl. lia.
  - rewrite decide_False by assumption. rewrite IH.
    destruct (list_find _ t) as [[k y]|]; simpl; [lia|reflexivity].
Qed.

Lemma indexOf_first_colon (t : jsstring) :
  indexOf t 58 = match first_colon t with Some k => Z.of_nat k | None => -1 end.
Proof.
  unfold indexOf, first_colon. rewrite indexOf_from_find.
  destruct (list_find _ t) as [[k y]|]; reflexivity.
Qed.

Lemma substring_removelast (t : jsstring) :
  t <> [] -> substring t 0 (str_length t - 1) = removelast t.
Proof.
  intros Hne. unfold substring, clamp, str_length.
  assert (1 <= length t)%nat by (destruct t; [congruence|simpl; lia]).
  rewrite removelast_firstn_len.
  replace (Z.max 0 (Z.min 0 (Z.of_nat (length t)))) with 0 by lia.
  replace (Z.max 0 (Z.min (Z.of_nat (length t) - 1) (Z.of_nat (length t))))
    with (Z.of_nat (length t) - 1) by lia.
  replace (Z.min 0 (Z.of_nat (length t) - 1)) with 0 by lia.
  replace (Z.max 0 (Z.of_nat (length t) - 1)) with (Z.of_nat (length t) - 1) by lia.
  simpl. f_equal. lia.
Qed.

(** The branch of [normalizePath] after the two regular-expression tests,
    read as the trailing-slash rule. *)
Lemma trailing_slash_branch (t : jsstring) :
  (if jsstring_eqb (charAt t (str_length t - 1)) (lit "/") then
     if indexOf t 58 >? -1 then
       if indexOf t 58 <? str_length t - 2
       then substring t 0 (str_length t - 1) else t
     else if str_length t >? 1 then substring t 0 (str_length t - 1) else t
   else t) = strip_trailing_slash t.
Proof.
  unfold strip_trailing_slash, keeps_trailing_slash.
  rewrite ends_with_slash_decide, indexOf_first_colon.
  case_bool_decide as Hlast; [|reflexivity].
  assert (Hne : t <> []) by (intros ->; discriminate).
  rewrite (substring_removelast t Hne). unfold str_length.
  destruct (first_colon t) as [k|].
  - destruct (Z.gtb_spec (Z.of_nat k) (-1)) as [_|?]; [|lia].
    destruct (Z.ltb_spec (Z.of_nat k) (Z.of_nat (length t) - 2)) as [Hk|Hk].
    + rewrite bool_decide_eq_false_2 by lia. reflexivity.
    + rewrite bool_decide_eq_true_2 by lia. reflexivity.
  - simpl. destruct (Z.gtb_spec (Z.of_nat (length t)) 1) as [Hl|Hl].
    + rewrite bool_decide_eq_false_2; [reflexivity|].
      intros ->. simpl in Hl. lia.
    + rewrite bool_decide_eq_true_2; [reflexivity|].
      destruct t as [|x [|y t]]; simpl in Hl; [congruence| |lia].
      simpl in Hlast. injection Hlast as ->. reflexivity.
Qed.

(** *** [trim] *)

Lemma trimStart_no_ws_head (s : jsstring) : no_ws_head (trimStart s).
Proof.
  induction s as [|c s IH]; simpl; [exact I|].
  destruct (isWhiteSpace c) eqn:E; [exact IH|exact E].
Qed.

Lemma trimStart_id (s : jsstring) : no_ws_head s -> trimStart s = s.
Proof. destruct s as [|c s]; simpl; [reflexivity|]. intros ->; reflexivity. Qed.

Lemma trimStart_suffix (s : jsstring) : exists k, s = k ++ trimStart s.
Proof.
  induction s as [|c s [k IH]]; simpl; [exists []; reflexivity|].
  destruct (isWhiteSpace c).
  - exists (c :: k). simpl. f_equal. exact IH.
  - exists []. reflexivity.
Qed.

Lemma trimEnd_prefix (s : jsstring) : exists k, s = trimEnd s ++ k.
Proof.
  unfold trimEnd. destruct (trimStart_suffix (rev s)) as [k Hk].
  exists (rev k). rewrite <- rev_app_distr, <- Hk, rev_involutive. reflexivity.
Qed.

Lemma trimEnd_no_ws_head (s : jsstring) : no_ws_head s -> no_ws_head (trimEnd s).
Proof.
  intros H. destruct (trimEnd_prefix s) as [k Hk].
  destruct (trimEnd s) as [|c r]; [exact I|].
  rewrite Hk in H. exact H.
Qed.

Lemma trim_no_ws (s : jsstring) : no_ws_head (trim s) /\ no_ws_head (rev (trim s)).
Proof.
  unfold trim. split.
  - apply trimEnd_no_ws_head, trimStart_no_ws_head.
  - unfold trimEnd. rewrite rev_involutive. apply trimStart_no_ws_head.
Qed.

Lemma trim_id (s : jsstring) : no_ws_head s -> no_ws_head (rev s) -> trim s = s.
Proof.
  intros H1 H2. unfold trim, trimEnd.
  rewrite (trimStart_id s H1), (trimStart_id (rev s) H2). apply rev_involutive.
Qed.

Lemma trim_idempotent (s : jsstring) : trim (trim s) = trim s.
Proof. destruct (trim_no_ws s). apply trim_id; assumption. Qed.

Lemma In_trimStart (x : N) (s : jsstring) : In x (trimStart s) -> In x s.
Proof.
  destruct (trimStart_suffix s) as [k Hk]. intros H.
  rewrite Hk. apply in_or_app. right. exact H.
Qed.

Lemma In_trim (x : N) (s : jsstring) : In x (trim s) -> In x s.
Proof.
  unfold trim, trimEnd. intros H.
  apply In_trimStart. apply in_rev. apply In_trimStart. apply in_rev in H. exact H.
Qed.

Lemma is_ascii_trim (s : jsstring) : is_ascii s = true -> is_ascii (trim s) = true.
Proof.
  unfold is_ascii. rewrite !forallb_forall. intros H x Hx. apply H, In_trim, Hx.
Qed.

Lemma is_ascii_NON_ASCII_REGEX (s : jsstring) :
  is_ascii s = true -> NON_ASCII_REGEX_test s = false.
Proof.
  unfold is_ascii, NON_ASCII_REGEX_test. induction s as [|c s IH]; simpl; [reflexivity|].
  rewrite andb_true_iff. intros [Hc Hs]. rewrite (IH Hs), orb_false_r.
  apply N.ltb_lt in Hc. apply N.ltb_ge. lia.
Qed.

(** *** Backslash conversion *)

Lemma slash_of_ws (c : N) : isWhiteSpace (slash_of c) = isWhiteSpace c.
Proof. unfold slash_of. destruct (N.eqb_spec c 92) as [->|]; reflexivity. Qed.

Lemma slash_of_idem (c : N) : slash_of (slash_of c) = slash_of c.
Proof.
  unfold slash_of. destruct (N.eqb_spec c 92) as [->|Hc]; [reflexivity|].
  destruct (N.eqb_spec c 92); [contradiction|reflexivity].
Qed.

Lemma slash_of_not_backslash (c : N) : slash_of c <> 92%N.
Proof. unfold slash_of. destruct (N.eqb_spec c 92); [discriminate|assumption]. Qed.

Lemma rev_fmap {A B} (f : A -> B) (l : list A) : rev (f <$> l) = f <$> rev l.
Proof.
  induction l as [|x l IH]; [reflexivity|].
  cbn [rev]. rewrite fmap_app, <- IH. reflexivity.
Qed.

Lemma no_ws_head_slash (s : jsstring) : no_ws_head s -> no_ws_head (slash_of <$> s).
Proof. destruct s as [|c s]; simpl; [trivial|]. rewrite slash_of_ws. trivial. Qed.

Lemma replace_SLASH_REGEX_trimmed (s : jsstring) :
  trim (replace_SLASH_REGEX (trim s)) = replace_SLASH_REGEX (trim s).
Proof.
  unfold replace_SLASH_REGEX. destruct (trim_no_ws s) as [H1 H2].
  apply trim_id.
  - apply no_ws_head_slash, H1.
  - rewrite rev_fmap. apply no_ws_head_slash, H2.
Qed.

Lemma replace_SLASH_REGEX_idem (s : jsstring) :
  replace_SLASH_REGEX (replace_SLASH_REGEX s) = replace_SLASH_REGEX s.
Proof.
  unfold replace_SLASH_REGEX.
  induction s as [|c s IH]; [reflexivity|].
  cbn [fmap list_fmap]. rewrite slash_of_idem. f_equal. exact IH.
Qed.

Lemma replace_SLASH_REGEX_not_extended (s : jsstring) :
  EXTENDED_PATH_REGEX_test (replace_SLASH_REGEX s) = false.
Proof.
  unfold replace_SLASH_REGEX. unfold EXTENDED_PATH_REGEX_test.
  destruct s as [|c s]; [reflexivity|]. cbn [fmap list_fmap startsWith].
  destruct (N.eqb_spec 92 (slash_of c)) as [E|]; [|reflexivity].
  symmetry in E. destruct (slash_of_not_backslash c E).
Qed.

Lemma replace_SLASH_REGEX_non_ascii (s : jsstring) :
  NON_ASCII_REGEX_test (replace_SLASH_REGEX s) = NON_ASCII_REGEX_test s.
Proof.
  unfold replace_SLASH_REGEX. unfold NON_ASCII_REGEX_test.
  induction s as [|c s IH]; [reflexivity|]. cbn [fmap list_fmap existsb].
  change (list_fmap N N slash_of s) with (slash_of <$> s). rewrite IH. f_equal.
  unfold slash_of. destruct (N.eqb_spec c 92) as [->|]; reflexivity.
Qed.

Lemma last_replace_SLASH_REGEX (s : jsstring) :
  last (replace_SLASH_REGEX s) = slash_of <$> last s.
Proof. unfold replace_SLASH_REGEX. apply fmap_last. Qed.

(** ** [normalizePath] *)

(** On a path that passes the two regular-expression tests, [normalizePath]
    is trimming, backslash conversion and the trailing-slash rule. *)
Lemma normalizePath_converted (str : jsstring) :
  EXTENDED_PATH_REGEX_test (trim str) = false ->
  NON_ASCII_REGEX_test (trim str) = false ->
  normalizePath str = strip_trailing_slash (replace_SLASH_REGEX (trim str)).
Proof.
  intros H1 H2. unfold normalizePath. rewrite H1, H2. cbn [orb].
  apply trailing_slash_branch.
Qed.

Lemma normalizePath_unchanged (str : jsstring) :
  EXTENDED_PATH_REGEX_test (trim str) || NON_ASCII_REGEX_test (trim str) = true ->
  normalizePath str = trim str.
Proof. intros H. unfold normalizePath. rewrite H. reflexivity. Qed.

(** A path whose trimmed form ends in neither separator is normalized to a
    fixed point of [normalizePath], whatever its characters. *)
Lemma normalizePath_fixed_point (p : jsstring) :
  last (trim p) <> Some 47%N ->
  last (trim p) <> Some 92%N ->
  normalizePath (normalizePath p) = normalizePath p.
Proof.
  intros Hs Hb.
  destruct (EXTENDED_PATH_REGEX_test (trim p) || NON_ASCII_REGEX_test (trim p)) eqn:E.
  - rewrite (normalizePath_unchanged p E).
    rewrite (normalizePath_unchanged (trim p)).
    + apply trim_idempotent.
    + rewrite trim_idempotent. exact E.
  - apply orb_false_iff in E as [E1 E2].
    assert (Hlast : last (replace_SLASH_REGEX (trim p)) <> Some 47%N).
    { rewrite last_replace_SLASH_REGEX. destruct (last (trim p)) as [c|]; [|discriminate].
      simpl. unfold slash_of. destruct (N.eqb_spec c 92) as [->|Hc].
      - congruence.
      - exact Hs. }
    assert (Hfix : strip_trailing_slash (replace_SLASH_REGEX (trim p))
                   = replace_SLASH_REGEX (trim p)).
    { unfold strip_trailing_slash. rewrite bool_decide_eq_false_2 by exact Hlast. reflexivity. }
    rewrite (normalizePath_converted p E1 E2), Hfix.
    rewrite normalizePath_converted.
    + rewrite replace_SLASH_REGEX_trimmed, replace_SLASH_REGEX_idem. exact Hfix.
    + rewrite replace_SLASH_REGEX_trimmed. apply replace_SLASH_REGEX_not_extended.
    + rewrite replace_SLASH_REGEX_trimmed, replace_SLASH_REGEX_non_ascii. exact E2.
Qed.

(** C9, amended. For every ASCII path whose whitespace-trimmed form ends in
    neither a slash nor a backslash, [normalizePath] is idempotent:
    normalizing the result again gives the same string. *)
Theorem normalizePath_idempotent (p : jsstring) :
  is_ascii p = true ->
  last (trim p) <> Some 47%N ->
  last (trim p) <> Some 92%N ->
  normalizePath (normalizePath p) = normalizePath p.
Proof. intros _. apply normalizePath_fixed_point. Qed.

Lemma normalizePath_idempotent_witness :
  normalizePath (normalizePath (lit " C:\foo\bar ")) = normalizePath (lit " C:\foo\bar ").
Proof.
  apply (normalizePath_idempotent (lit " C:\foo\bar ")).
  - reflexivity.
  - vm_compute. discriminate.
  - vm_compute. discriminate.
Defined.

(** C9 as stated fails: the ASCII path foo followed by two backslashes has
    no trailing slash and no colon at all; its normal form is "foo/", and
    normalizing that again gives "foo". The same happens for "foo//" followed
    by a space, whose last character is no separator of either kind. *)
Lemma normalizePath_not_idempotent :
  (is_ascii (lit "foo\\") = true
   /\ last (lit "foo\\") = Some 92%N
   /\ first_colon (lit "foo\\") = None
   /\ normalizePath (lit "foo\\") = lit "foo/"
   /\ normalizePath (normalizePath (lit "foo\\")) = lit "foo"
   /\ normalizePath (normalizePath (lit "foo\\")) <> normalizePath (lit "foo\\"))
  /\ (is_ascii (lit "foo// ") = true
      /\ last (lit "foo// ") = Some 32%N
      /\ first_colon (lit "foo// ") = None
      /\ normalizePath (lit "foo// ") = lit "foo/"
      /\ normalizePath (normalizePath (lit "foo// ")) = lit "foo"
      /\ normalizePath (normalizePath (lit "foo// ")) <> normalizePath (lit "foo// ")).
Proof.
  repeat split; try reflexivity; vm_compute; discriminate.
Qed.

(** C3, amended. On an ASCII path (outside the extended-length form),
    [normalizePath] trims, converts backslashes and then strips a single
    trailing slash, except that the slash stays when the first colon of the
    string sits within two characters of the end, and when the whole string is
    "/". In particular "C:\foo\bar\" becomes "C:/foo/bar" and "C:\" becomes
    "C:/". *)
Theorem normalizePath_trailing_slash :
  (forall str : jsstring,
      is_ascii str = true ->
      EXTENDED_PATH_REGEX_test (trim str) = false ->
      normalizePath str = strip_trailing_slash (replace_SLASH_REGEX (trim str)))
  /\ normalizePath (lit "C:\foo\bar\") = lit "C:/foo/bar"
  /\ normalizePath (lit "C:\") = lit "C:/".
Proof.
  split; [|split; reflexivity].
  intros str Ha He. apply normalizePath_converted; [exact He|].
  apply is_ascii_NON_ASCII_REGEX, is_ascii_trim, Ha.
Qed.

Lemma normalizePath_trailing_slash_witness :
  normalizePath (lit "/usr/lib/") = lit "/usr/lib".
Proof.
  rewrite (proj1 normalizePath_trailing_slash (lit "/usr/lib/")); reflexivity.
Defined.

(** C3 as stated fails: "/a:b/c:/" has a colon at index 6 of 8, within two
    characters of the end, and its trailing slash is stripped all the same,
    because only the first colon (index 2) is looked at; "/ab/c:/", whose
    only colon sits at the same distance from the end, keeps its slash. *)
Lemma normalizePath_later_colon :
  lit "/a:b/c:/" !! 6%nat = Some 58%N
  /\ length (lit "/a:b/c:/") = 8%nat
  /\ first_colon (lit "/a:b/c:/") = Some 2%nat
  /\ normalizePath (lit "/a:b/c:/") = lit "/a:b/c:"
  /\ normalizePath (lit "/ab/c:/") = lit "/ab/c:/".
Proof. repeat split; reflexivity. Qed.

(** ** [getModuleId] *)

Lemma split_nonempty (sep : N) (s : jsstring) : split sep s <> [].
Proof.
  induction s as [|c s IH]; simpl; [discriminate|].
  destruct (N.eqb c sep); [discriminate|].
  destruct (split sep s); [contradiction|discriminate].
Qed.

(** Joining the segments again with the separator gives the string back. *)
Lemma join_split (sep : N) (s : jsstring) : join [sep] (split sep s) = s.
Proof.
  induction s as [|c s IH]; [reflexivity|].
  cbn [split]. destruct (N.eqb_spec c sep) as [->|Hne].
  - pose proof (split_nonempty sep s) as Hn.
    destruct (split sep s) as [|seg segs]; [contradiction|].
    cbn [join] in *. cbn [app]. f_equal. exact IH.
  - pose proof (split_nonempty sep s) as Hn.
    destruct (split sep s) as [|seg segs]; [contradiction|].
    cbn [join] in *. destruct segs; cbn [app]; f_equal; exact IH.
Qed.

(** No segment contains the separator. *)
Lemma split_no_sep (sep : N) (s : jsstring) :
  Forall (fun seg => ~ In sep seg) (split sep s).
Proof.
  induction s as [|c s IH]; cbn [split].
  - constructor; [intros []|constructor].
  - destruct (N.eqb_spec c sep) as [->|Hne].
    + constructor; [intros []|exact IH].
    + destruct (split sep s) as [|seg segs].
      * constructor; [|constructor]. intros [H|[]]. congruence.
      * inversion IH as [|? ? Hseg Hsegs]; subst. constructor; [|exact Hsegs].
        intros [H|H]; [congruence|contradiction].
Qed.

Lemma substring_from_1 (s : jsstring) : substring_from s 1 = drop 1 s.
Proof.
  destruct s as [|x s]; [reflexivity|].
  unfold substring_from, substring, clamp, str_length.
  cbn [length drop].
  replace (Z.max 0 (Z.min 1 (Z.of_nat (S (length s))))) with 1 by lia.
  replace (Z.max 0 (Z.min (Z.of_nat (S (length s))) (Z.of_nat (S (length s)))))
    with (Z.of_nat (S (length s))) by lia.
  replace (Z.min 1 (Z.of_nat (S (length s)))) with 1 by lia.
  replace (Z.max 1 (Z.of_nat (S (length s)))) with (Z.of_nat (S (length s))) by lia.
  replace (Z.to_nat 1) with 1%nat by reflexivity. cbn [drop].
  rewrite ?drop_0. apply take_ge. lia.
Qed.

Lemma getModuleId_splitModuleSpecifier (s : jsstring) :
  getModuleId s = splitModuleSpecifier s.
Proof.
  unfold getModuleId, splitModuleSpecifier.
  change (lit "~") with [126%N]. change (lit "@") with [64%N].
  rewrite substring_from_1.
  set (rest := if startsWith [126%N] s then drop 1 s else s).
  assert (Hrest : rest = match s with
                         | c :: r => if (c =? 126)%N then r else s
                         | [] => []
                         end).
  { subst rest. destruct s as [|c r]; [reflexivity|]. cbn [startsWith].
    rewrite (N.eqb_sym 126 c). destruct (c =? 126)%N; reflexivity. }
  rewrite <- Hrest. clear Hrest. generalize rest. clear. intros rest.
  assert (Hsc : startsWith [64%N] rest
                = match rest with c :: _ => (c =? 64)%N | [] => false end).
  { destruct rest as [|c r]; [reflexivity|]. cbn [startsWith].
    rewrite (N.eqb_sym 64 c). apply andb_true_r. }
  rewrite Hsc. clear Hsc.
  pose proof (split_nonempty 47 rest) as Hn.
  destruct (split 47 rest) as [|a [|b more]]; [contradiction| |].
  - rewrite andb_false_r. reflexivity.
  - destruct (Z.gtb_spec (Z.of_nat (length (a :: b :: more))) 1) as [_|Hl];
      [|cbn [length] in Hl; lia].
    rewrite andb_true_r.
    destruct (match rest with c :: _ => (c =? 64)%N | [] => false end); reflexivity.
Qed.

(** C4. For every specifier, [getModuleId] drops a leading "~", splits the
    remainder on "/" and returns the first two segments joined by "/" as the
    module id of a scoped specifier (leading "@", more than one segment), the
    first segment otherwise, with the remaining segments joined by "/" as the
    file path (joining all segments gives the remainder back); both fields are
    strings on return; "~lodash/merge" and "~@scope/pkg/file.scss" split as
    the specification says. *)
Theorem getModuleId_spec :
  (forall s : jsstring, getModuleId s = splitModuleSpecifier s)
  /\ (forall s : jsstring, join (lit "/") (split 47 s) = s)
  /\ (forall s : jsstring, exists m f : jsstring,
         getModuleId s = {| moduleId := Some m; filePath := Some f |})
  /\ getModuleId (lit "~lodash/merge")
     = {| moduleId := Some (lit "lodash"); filePath := Some (lit "merge") |}
  /\ getModuleId (lit "~@scope/pkg/file.scss")
     = {| moduleId := Some (lit "@scope/pkg"); filePath := Some (lit "file.scss") |}.
Proof.
  split; [exact getModuleId_splitModuleSpecifier|].
  split; [exact (join_split 47)|].
  split; [|split; reflexivity].
  intros s. rewrite getModuleId_splitModuleSpecifier. unfold splitModuleSpecifier.
  destruct (split 47 _) as [|a [|b more]]; [eauto|eauto|].
  destruct (match _ with c :: _ => (c =? 64)%N | [] => false end); eauto.
Qed.

(** ** [loadDiagnostic] *)

Lemma charAt_nil (i : Z) : charAt [] i = [].
Proof. unfold charAt. destruct (i <? 0); reflexivity. Qed.

(** Over the empty text both scans stop at once. *)
Lemma scanBackward_nil (i : nat) (start : Z) : scanBackward [] i start = start.
Proof. destruct i; cbn [scanBackward]; rewrite ?charAt_nil; reflexivity. Qed.

Lemma scanForward_nil (n : nat) (j len : Z) : scanForward [] n j len = len.
Proof. destruct n; cbn [scanForward]; rewrite ?charAt_nil; reflexivity. Qed.

Lemma scanBackward_nonneg (text : jsstring) (i : nat) (start : Z) :
  0 <= start -> 0 <= scanBackward text i start.
Proof.
  revert start; induction i as [|i IH]; intros start Hs; cbn [scanBackward];
    destruct (isStop _); try lia.
  apply IH. lia.
Qed.

Lemma scanForward_ge (text : jsstring) (n : nat) (j len : Z) :
  len <= scanForward text n j len.
Proof.
  revert j len; induction n as [|n IH]; intros j len; cbn [scanForward]; [lia|].
  destruct (isStop _); [lia|]. specialize (IH (j + 1) (len + 1)). lia.
Qed.

(** With a column that is not negative the span starts at a valid index. *)
Lemma errorSpan_nonneg (text : jsstring) (c : Z) :
  0 <= c ->
  exists s, fst (errorSpan text (Some c)) = Some s /\ 0 <= s
            /\ 0 <= snd (errorSpan text (Some c)).
Proof.
  intros Hc. unfold errorSpan.
  destruct (Z.geb_spec c 0) as [_|?]; [|lia].
  pose proof (scanBackward_nonneg text (Z.to_nat c) c Hc) as Hb.
  set (start := scanBackward text (Z.to_nat c) c) in *.
  pose proof (scanForward_ge text (Z.to_nat (str_length text - start + 1)) start 0) as Hf.
  set (len := scanForward text _ start 0) in *.
  destruct (Z.eqb_spec len 0) as [E|E]; destruct (Z.gtb_spec start 0) as [G|G];
    cbn [andb fst snd]; eexists; (split; [reflexivity|]); lia.
Qed.

Lemma errorSpan_empty (c : Z) : 0 < c -> errorSpan [] (Some c) = (Some (c - 1), 1).
Proof.
  intros Hc. unfold errorSpan.
  destruct (Z.geb_spec c 0) as [_|?]; [|lia].
  rewrite scanBackward_nil, scanForward_nil.
  destruct (Z.gtb_spec c 0) as [_|?]; [|lia]. reflexivity.
Qed.

Lemma loadDiagnostic_some (context : PluginCtx) (sassError : LegacyException)
    (filePath : option jsstring) :
  loadDiagnostic (Some context) (Some sassError) filePath
  = {| returned := Some (fst (diagnosticOf context sassError filePath));
       context_after :=
         Some (push_diagnostic context (fst (diagnosticOf context sassError filePath)));
       console_error := snd (diagnosticOf context sassError filePath) |}.
Proof. reflexivity. Qed.

(** The [lines] of the diagnostic when the file is read. *)
Lemma diagnosticOf_lines (context : PluginCtx) (sassError : LegacyException)
    (filePath : option jsstring) (abs sourceText : jsstring) (n : Z) :
  errorFilePath sassError filePath = Some abs ->
  fs_readFileSync context abs = inl sourceText ->
  line sassError = Some n ->
  1 <= n ->
  lines (fst (diagnosticOf context sassError filePath))
  = contextLines (split_lines sourceText) n (n - 1) (column sassError).
Proof.
  intros Hp Hr Hl Hn. unfold diagnosticOf. rewrite Hp, Hl.
  destruct (Z.gtb_spec (n - 1) (-1)) as [_|?]; [|lia].
  rewrite Hr. reflexivity.
Qed.

(** Without a read, for whatever reason, there are no lines. *)
Lemma diagnosticOf_lines_cases (context : PluginCtx) (sassError : LegacyException)
    (filePath : option jsstring) :
  lines (fst (diagnosticOf context sassError filePath)) = []
  \/ exists abs sourceText n,
       errorFilePath sassError filePath = Some abs
       /\ fs_readFileSync context abs = inl sourceText
       /\ line sassError = Some n /\ 1 <= n.
Proof.
  unfold diagnosticOf.
  destruct (errorFilePath sassError filePath) as [abs|] eqn:Hp; [|left; reflexivity].
  destruct (line sassError) as [n|] eqn:Hl; [|left; reflexivity].
  destruct (Z.gtb_spec (n - 1) (-1)) as [Hn|Hn]; [|left; reflexivity].
  destruct (fs_readFileSync context abs) as [sourceText|e] eqn:Hr; [|left; reflexivity].
  right. exists abs, sourceText, n. repeat split; try assumption; try reflexivity. lia.
Qed.

(** C1. With the three lines "a {", "  color: red;", "}" and an error
    reported at line 2, column 10, the diagnostic has exactly three lines, in
    ascending [lineIndex] order; the first and the last carry the span
    (-1, -1), and the middle one starts at index 9, the "r" of "red", with
    length 3. *)
Theorem loadDiagnostic_red_example (context : PluginCtx)
    (sassError : LegacyException) (filePath : option jsstring)
    (abs sourceText : jsstring) :
  errorFilePath sassError filePath = Some abs ->
  fs_readFileSync context abs = inl sourceText ->
  split_lines sourceText = [lit "a {"; lit "  color: red;"; lit "}"] ->
  line sassError = Some 2 ->
  column sassError = Some 10 ->
  exists d,
    returned (loadDiagnostic (Some context) (Some sassError) filePath) = Some d
    /\ lines d =
       [ {| lineIndex := 0; lineNumber := 1; text := Some (lit "a {");
            errorCharStart := Some (-1); errorLength := -1 |};
         {| lineIndex := 1; lineNumber := 2; text := Some (lit "  color: red;");
            errorCharStart := Some 9; errorLength := 3 |};
         {| lineIndex := 2; lineNumber := 3; text := Some (lit "}");
            errorCharStart := Some (-1); errorLength := -1 |} ]
    /\ substring (lit "  color: red;") 9 (9 + 3) = lit "red".
Proof.
  intros Hp Hr Hs Hl Hc. eexists. split; [reflexivity|]. split; [|reflexivity].
  rewrite (diagnosticOf_lines context sassError filePath abs sourceText 2 Hp Hr Hl)
    by lia.
  rewrite Hs, Hc. reflexivity.
Qed.

Lemma loadDiagnostic_red_example_witness :
  exists d,
    returned (loadDiagnostic (Some sample_ctx) (Some (sample_error 2 10))
                (Some (lit "/proj/src/a.scss"))) = Some d
    /\ lines d =
       [ {| lineIndex := 0; lineNumber := 1; text := Some (lit "a {");
            errorCharStart := Some (-1); errorLength := -1 |};
         {| lineIndex := 1; lineNumber := 2; text := Some (lit "  color: red;");
            errorCharStart := Some 9; errorLength := 3 |};
         {| lineIndex := 2; lineNumber := 3; text := Some (lit "}");
            errorCharStart := Some (-1); errorLength := -1 |} ]
    /\ substring (lit "  color: red;") 9 (9 + 3) = lit "red".
Proof.
  apply (loadDiagnostic_red_example sample_ctx (sample_error 2 10)
           (Some (lit "/proj/src/a.scss")) (lit "/proj/src/a.scss") red_scss);
    reflexivity.
Defined.

(** C5. [loadDiagnostic] returns null, and leaves the diagnostics collection
    as it is, exactly when the error or the context is missing. In every other
    case it returns a diagnostic and appends that one diagnostic to
    [context.diagnostics]: also without any file path (no lines) and when the
    read of the source file throws (no lines, the failure is printed). *)
Theorem loadDiagnostic_null_iff (context : option PluginCtx)
    (sassError : option LegacyException) (filePath : option jsstring) :
  (returned (loadDiagnostic context sassError filePath) = None
   <-> sassError = None \/ context = None)
  /\ (returned (loadDiagnostic context sassError filePath) = None ->
      context_after (loadDiagnostic context sassError filePath) = context)
  /\ (forall c e, context = Some c -> sassError = Some e ->
      exists d,
        returned (loadDiagnostic context sassError filePath) = Some d
        /\ context_after (loadDiagnostic context sassError filePath)
           = Some (push_diagnostic c d)
        /\ diagnostics (push_diagnostic c d) = diagnostics c ++ [d]
        /\ (errorFilePath e filePath = None -> lines d = [] /\ absFilePath d = None)
        /\ (forall abs n msg,
               errorFilePath e filePath = Some abs -> line e = Some n -> 1 <= n ->
               fs_readFileSync c abs = inr msg ->
               lines d = []
               /\ console_error (loadDiagnostic context sassError filePath)
                  = [lit "StyleSassPlugin loadDiagnostic, " ++ msg])).
Proof.
  split; [|split].
  - destruct sassError, context; cbn; split; intros H; try discriminate; auto;
      destruct H; discriminate.
  - destruct sassError, context; cbn; intros H; try discriminate; reflexivity.
  - intros c e -> ->. rewrite loadDiagnostic_some. cbn [returned context_after console_error].
    eexists. split; [reflexivity|]. split; [reflexivity|]. split; [reflexivity|]. split.
    + intros Hp. unfold diagnosticOf. rewrite Hp. split; reflexivity.
    + intros abs n msg Hp Hl Hn Hr. unfold diagnosticOf. rewrite Hp, Hl.
      destruct (Z.gtb_spec (n - 1) (-1)) as [_|?]; [|lia].
      rewrite Hr. split; reflexivity.
Qed.

(** The window built around the error line: an optional previous line, the
    error line, an optional next line. *)
Lemma contextLines_shape (srcLines : list jsstring) (n : Z) (column : option Z) :
  contextLines srcLines n (n - 1) column
  = (if n - 1 >? 0
     then [ {| lineIndex := n - 1 - 1; lineNumber := n - 1;
               text := array_get srcLines (n - 1 - 1);
               errorCharStart := Some (-1); errorLength := -1 |} ]
     else [])
    ++ [ {| lineIndex := n - 1; lineNumber := n;
            text := Some (default [] (array_get srcLines (n - 1)));
            errorCharStart := fst (errorSpan (default [] (array_get srcLines (n - 1))) column);
            errorLength := snd (errorSpan (default [] (array_get srcLines (n - 1))) column) |} ]
    ++ (if n - 1 + 1 <? Z.of_nat (length srcLines)
        then [ {| lineIndex := n - 1 + 1; lineNumber := n + 1;
                  text := array_get srcLines (n - 1 + 1);
                  errorCharStart := Some (-1); errorLength := -1 |} ]
        else []).
Proof.
  unfold contextLines. cbn [lineIndex lineNumber].
  destruct (n - 1 >? 0); destruct (n - 1 + 1 <? Z.of_nat (length srcLines)); reflexivity.
Qed.

(** C6. For an error with a 1-based line and column, the diagnostic has at
    most three lines, in ascending [lineIndex] order; the line at the error's
    zero-based index has a start and a length that are not negative, the
    previous and the next line carry (-1, -1); there is no previous line for
    an error on the first line and no next line for an error on the last line
    of the file. When the file is read the error line is there. *)
Theorem loadDiagnostic_window (context : PluginCtx) (sassError : LegacyException)
    (filePath : option jsstring) (n c : Z) :
  line sassError = Some n ->
  column sassError = Some c ->
  1 <= n ->
  1 <= c ->
  exists d,
    returned (loadDiagnostic (Some context) (Some sassError) filePath) = Some d
    /\ (length (lines d) <= 3)%nat
    /\ StronglySorted Z.lt (lineIndex <$> lines d)
    /\ (forall ln, In ln (lines d) ->
          (lineIndex ln = n - 1
           /\ exists s, errorCharStart ln = Some s /\ 0 <= s /\ 0 <= errorLength ln)
          \/ ((lineIndex ln = n - 2 \/ lineIndex ln = n)
              /\ errorCharStart ln = Some (-1) /\ errorLength ln = -1))
    /\ (n = 1 -> forall ln, In ln (lines d) -> n - 1 <= lineIndex ln)
    /\ (forall abs sourceText,
          errorFilePath sassError filePath = Some abs ->
          fs_readFileSync context abs = inl sourceText ->
          (exists ln, In ln (lines d) /\ lineIndex ln = n - 1)
          /\ (Z.of_nat (length (split_lines sourceText)) <= n ->
              forall ln, In ln (lines d) -> lineIndex ln <= n - 1)).
Proof.
  intros Hl Hc Hn Hc1. rewrite loadDiagnostic_some. cbn [returned].
  eexists. split; [reflexivity|].
  destruct (diagnosticOf_lines_cases context sassError filePath)
    as [Hnil|(abs & sourceText & n' & Hp & Hr & _ & _)].
  - assert (Hno : forall abs sourceText,
               errorFilePath sassError filePath = Some abs ->
               fs_readFileSync context abs = inl sourceText -> False).
    { intros abs sourceText Hp Hr.
      rewrite (diagnosticOf_lines context sassError filePath abs sourceText n Hp Hr Hl Hn)
        in Hnil.
      rewrite contextLines_shape in Hnil. destruct (n - 1 >? 0); discriminate. }
    rewrite Hnil. split; [cbn; lia|]. split; [constructor|].
    split; [intros ln []|]. split; [intros _ ln []|].
    intros abs sourceText Hp Hr. destruct (Hno abs sourceText Hp Hr).
  - rewrite (diagnosticOf_lines context sassError filePath abs sourceText n Hp Hr Hl Hn).
    rewrite contextLines_shape, Hc.
    set (srcLines := split_lines sourceText).
    destruct (errorSpan_nonneg (default [] (array_get srcLines (n - 1))) c)
      as (s & Hs & Hs0 & Hlen); [lia|].
    set (err := {| lineIndex := n - 1; lineNumber := n |}).
    assert (Hidx : lineIndex err = n - 1) by reflexivity.
    assert (Hspan : exists s, errorCharStart err = Some s /\ 0 <= s
                              /\ 0 <= errorLength err).
    { exists s. cbn. auto. }
    clearbody err. clear Hs Hs0 Hlen s.
    assert (Hread : forall abs' sourceText',
               errorFilePath sassError filePath = Some abs' ->
               fs_readFileSync context abs' = inl sourceText' ->
               split_lines sourceText' = srcLines).
    { intros abs' sourceText' Hp' Hr'. rewrite Hp in Hp'. injection Hp' as <-.
      rewrite Hr in Hr'. injection Hr' as <-. reflexivity. }
    destruct (Z.gtb_spec (n - 1) 0) as [Hprev|Hprev];
      destruct (Z.ltb_spec (n - 1 + 1) (Z.of_nat (length srcLines))) as [Hnext|Hnext];
      cbn [app length fmap list_fmap lineIndex].
    all: split; [lia|].
    all: split; [repeat constructor; rewrite ?Hidx; lia|].
    all: split;
      [intros ln Hin; cbn [In] in Hin;
       repeat (destruct Hin as [<-|Hin];
               [first [left; split; [exact Hidx|exact Hspan]
                      | right; cbn; split; [lia|auto]]|]);
       contradiction|].
    all: split;
      [intros Hn1 ln Hin; cbn [In] in Hin;
       repeat (destruct Hin as [<-|Hin]; [rewrite ?Hidx; cbn; lia|]);
       contradiction|].
    all: intros abs' sourceText' Hp' Hr'; rewrite (Hread abs' sourceText' Hp' Hr');
      (split; [exists err; split; [cbn [In]; auto|exact Hidx]|]).
    all: intros Hlast ln Hin; cbn [In] in Hin;
      repeat (destruct Hin as [<-|Hin]; [rewrite ?Hidx; cbn; lia|]);
      contradiction.
Qed.

Lemma loadDiagnostic_window_witness :
  exists d,
    returned (loadDiagnostic (Some sample_ctx) (Some (sample_error 3 1))
                (Some (lit "/proj/src/a.scss"))) = Some d
    /\ (length (lines d) <= 3)%nat
    /\ StronglySorted Z.lt (lineIndex <$> lines d)
    /\ (forall ln, In ln (lines d) ->
          (lineIndex ln = 3 - 1
           /\ exists s, errorCharStart ln = Some s /\ 0 <= s /\ 0 <= errorLength ln)
          \/ ((lineIndex ln = 3 - 2 \/ lineIndex ln = 3)
              /\ errorCharStart ln = Some (-1) /\ errorLength ln = -1))
    /\ (3 = 1 -> forall ln, In ln (lines d) -> 3 - 1 <= lineIndex ln)
    /\ (forall abs sourceText,
          errorFilePath (sample_error 3 1) (Some (lit "/proj/src/a.scss")) = Some abs ->
          fs_readFileSync sample_ctx abs = inl sourceText ->
          (exists ln, In ln (lines d) /\ lineIndex ln = 3 - 1)
          /\ (Z.of_nat (length (split_lines sourceText)) <= 3 ->
              forall ln, In ln (lines d) -> lineIndex ln <= 3 - 1)).
Proof.
  apply (loadDiagnostic_window sample_ctx (sample_error 3 1)
           (Some (lit "/proj/src/a.scss")) 3 1); [reflexivity|reflexivity|lia|lia].
Defined.

(** C10. When the error's zero-based line index is not negative and the file
    that was read has no line at that index, the error line is still built,
    with the empty string as its text; both scans halt at once over the empty
    text, so for a column greater than 0 the span is ([column] - 1, 1). The
    error line is the last entry. *)
Theorem loadDiagnostic_missing_line (context : PluginCtx)
    (sassError : LegacyException) (filePath : option jsstring)
    (abs sourceText : jsstring) (n c : Z) :
  errorFilePath sassError filePath = Some abs ->
  fs_readFileSync context abs = inl sourceText ->
  line sassError = Some n ->
  0 <= n - 1 ->
  array_get (split_lines sourceText) (n - 1) = None ->
  column sassError = Some c ->
  0 < c ->
  exists d,
    returned (loadDiagnostic (Some context) (Some sassError) filePath) = Some d
    /\ last (lines d)
       = Some {| lineIndex := n - 1; lineNumber := n; text := Some [];
                 errorCharStart := Some (c - 1); errorLength := 1 |}
    /\ (forall i start, scanBackward [] i start = start)
    /\ (forall k j len, scanForward [] k j len = len).
Proof.
  intros Hp Hr Hl Hn Hnone Hc Hc0. rewrite loadDiagnostic_some. cbn [returned].
  eexists. split; [reflexivity|].
  split; [|split; [exact scanBackward_nil|exact scanForward_nil]].
  rewrite (diagnosticOf_lines context sassError filePath abs sourceText n Hp Hr Hl)
    by lia.
  rewrite contextLines_shape, Hnone, Hc. cbn [default].
  rewrite (errorSpan_empty c Hc0). cbn [fst snd].
  assert (Hlen : Z.of_nat (length (split_lines sourceText)) <= n - 1).
  { unfold array_get in Hnone. destruct (Z.ltb_spec (n - 1) 0) as [?|_]; [lia|].
    apply lookup_ge_None in Hnone. lia. }
  destruct (Z.ltb_spec (n - 1 + 1) (Z.of_nat (length (split_lines sourceText))))
    as [?|_]; [lia|].
  destruct (n - 1 >? 0); reflexivity.
Qed.

Lemma loadDiagnostic_missing_line_witness :
  exists d,
    returned (loadDiagnostic (Some sample_ctx) (Some (sample_error 7 4))
                (Some (lit "/proj/src/a.scss"))) = Some d
    /\ last (lines d)
       = Some {| lineIndex := 7 - 1; lineNumber := 7; text := Some [];
                 errorCharStart := Some (4 - 1); errorLength := 1 |}
    /\ (forall i start, scanBackward [] i start = start)
    /\ (forall k j len, scanForward [] k j len = len).
Proof.
  apply (loadDiagnostic_missing_line sample_ctx (sample_error 7 4)
           (Some (lit "/proj/src/a.scss")) (lit "/proj/src/a.scss") red_scss 7 4);
    [reflexivity|reflexivity|reflexivity|lia|reflexivity|reflexivity|lia].
Defined.

(** ** The heap monad *)

Lemma get_prop_run (o : loc) (k : string) (h : heap) :
  get_prop o k h = (Ok (prop_of h o k), h).
Proof.
  unfold get_prop, prop_of, bind, read, ret.
  destruct (h !! o) as [[props|items]|]; reflexivity.
Qed.

Lemma as_array_run (v : val) (h : heap) : as_array v h = (Ok (array_items h v), h).
Proof.
  unfold as_array, array_items, bind, read, ret. destruct v; try reflexivity.
  destruct (h !! l) as [[props|items]|]; reflexivity.
Qed.

Lemma spread_run (v : val) (h : heap) : spread v h = (spread_in h v, h).
Proof.
  unfold spread, spread_in, bind, read, ret, throw. destruct v; try reflexivity.
  destruct (h !! l) as [[props|items]|]; reflexivity.
Qed.

Lemma array_map_run (f : heap -> val -> outcome val) (v : val) (h : heap) :
  array_map f v h
  = match array_items h v with
    | Some items =>
        match map_items (f h) items with
        | Ok mapped => (Ok (VRef (length h)), h ++ [Arr mapped])
        | Throw e => (Throw e, h)
        end
    | None => (Throw (TypeError "map is not a function"), h)
    end.
Proof.
  unfold array_map, bind. rewrite as_array_run.
  destruct (array_items h v) as [items|]; [|reflexivity].
  unfold reading, alloc, ret. destruct (map_items (f h) items); reflexivity.
Qed.

(** *** The heap while [getRenderOptions] runs

    The user's heap [h0], then the options object under construction, then
    the cells allocated since. *)

Section Frame.

Variables (h0 : heap) (rp : gmap string val) (rest : list cell).

Lemma frame_lookup_renderOpts : (h0 ++ Obj rp :: rest) !! length h0 = Some (Obj rp).
Proof. apply list_lookup_middle. reflexivity. Qed.

Lemma frame_length : length (h0 ++ Obj rp :: rest) = (length h0 + S (length rest))%nat.
Proof. rewrite length_app. reflexivity. Qed.

Lemma frame_lookup_rest (i : nat) :
  (h0 ++ Obj rp :: rest) !! (length h0 + S i)%nat = rest !! i.
Proof.
  rewrite lookup_app_r by lia.
  replace (length h0 + S i - length h0)%nat with (S i) by lia. reflexivity.
Qed.

Lemma frame_insert_rest (i : nat) (c : cell) :
  <[(length h0 + S i)%nat := c]> (h0 ++ Obj rp :: rest) = h0 ++ Obj rp :: <[i := c]> rest.
Proof. rewrite insert_app_r. reflexivity. Qed.

Lemma frame_insert_renderOpts (c : cell) :
  <[length h0 := c]> (h0 ++ Obj rp :: rest) = h0 ++ c :: rest.
Proof.
  replace (length h0) with (length h0 + 0)%nat at 1 by lia.
  rewrite insert_app_r. reflexivity.
Qed.

Lemma frame_snoc (c : cell) :
  (h0 ++ Obj rp :: rest) ++ [c] = h0 ++ Obj rp :: (rest ++ [c]).
Proof. rewrite <- app_assoc. reflexivity. Qed.

Lemma prop_of_renderOpts (k : string) :
  prop_of (h0 ++ Obj rp :: rest) (length h0) k = default VUndefined (rp !! k).
Proof. unfold prop_of. rewrite frame_lookup_renderOpts. reflexivity. Qed.

Lemma set_prop_run (k : string) (v : val) :
  set_prop (length h0) k v (h0 ++ Obj rp :: rest)
  = (Ok tt, h0 ++ Obj (<[k := v]> rp) :: rest).
Proof.
  unfold set_prop, bind, read, write. rewrite frame_lookup_renderOpts.
  rewrite frame_insert_renderOpts. reflexivity.
Qed.

Lemma delete_prop_run (k : string) :
  delete_prop (length h0) k (h0 ++ Obj rp :: rest)
  = (Ok tt, h0 ++ Obj (delete k rp) :: rest).
Proof.
  unfold delete_prop, bind, read, write. rewrite frame_lookup_renderOpts.
  rewrite frame_insert_renderOpts. reflexivity.
Qed.

Lemma alloc_run (c : cell) :
  alloc c (h0 ++ Obj rp :: rest)
  = (Ok (length h0 + S (length rest))%nat, h0 ++ Obj rp :: (rest ++ [c])).
Proof. unfold alloc. rewrite frame_length, frame_snoc. reflexivity. Qed.

End Frame.

Lemma lookup_last_cell (rest : list cell) (c : cell) :
  (rest ++ [c]) !! length rest = Some c.
Proof. apply list_lookup_middle. reflexivity. Qed.

Lemma insert_last_cell (rest : list cell) (c c' : cell) :
  <[length rest := c']> (rest ++ [c]) = rest ++ [c'].
Proof.
  replace (length rest) with (length rest + 0)%nat at 1 by lia.
  rewrite insert_app_r. reflexivity.
Qed.

(** Pushing onto the array allocated last. *)
Lemma array_push_last (h0 : heap) (rp : gmap string val) (rest : list cell)
    (items xs : list val) :
  array_push (VRef (length h0 + S (length rest))%nat) xs
    (h0 ++ Obj rp :: (rest ++ [Arr items]))
  = (Ok tt, h0 ++ Obj rp :: (rest ++ [Arr (items ++ xs)])).
Proof.
  unfold array_push, bind, read, write.
  rewrite frame_lookup_rest, lookup_last_cell.
  rewrite frame_insert_rest, insert_last_cell. reflexivity.
Qed.

Lemma array_items_last (h0 : heap) (rp : gmap string val) (rest : list cell)
    (items : list val) :
  array_items (h0 ++ Obj rp :: (rest ++ [Arr items]))
    (VRef (length h0 + S (length rest))%nat) = Some items.
Proof.
  unfold array_items. rewrite frame_lookup_rest, lookup_last_cell. reflexivity.
Qed.

Lemma array_items_app (h ext : heap) (v : val) (items : list val) :
  array_items h v = Some items -> array_items (h ++ ext) v = Some items.
Proof.
  unfold array_items. destruct v; try discriminate.
  destruct (h !! l) as [[props|its]|] eqn:E; try discriminate.
  intros [= <-]. rewrite (lookup_app_l_Some _ _ _ _ E). reflexivity.
Qed.

Lemma prop_of_app (h ext : heap) (o : loc) (props : gmap string val) (k : string) :
  h !! o = Some (Obj props) -> prop_of (h ++ ext) o k = default VUndefined (props !! k).
Proof. intros E. unfold prop_of. rewrite (lookup_app_l_Some _ _ _ _ E). reflexivity. Qed.

Lemma default_Some {A} (d x : A) : default d (Some x) = x.
Proof. reflexivity. Qed.

Lemma object_assign_run (target source : loc) (h : heap)
    (sprops tprops : gmap string val) :
  h !! source = Some (Obj sprops) ->
  h !! target = Some (Obj tprops) ->
  object_assign target source h = (Ok tt, <[target := Obj (sprops ∪ tprops)]> h).
Proof.
  intros Hs Ht. unfold object_assign, bind, read, write. cbv beta iota.
  rewrite Hs, Ht. reflexivity.
Qed.

(** ** The stages of [getRenderOptions] *)

(** One step of a run: rewrite with the equation of the operation at the
    head, then let the [bind] pass its result on. *)
Ltac run lem := rewrite lem; cbv beta iota zeta.

Section Stages.

Variable path : NodePath.
Variables (h0 : heap) (rp : gmap string val) (rest : list cell).

Lemma copyOptions_run (opts : loc) (props : gmap string val) (sourceText : jsstring) :
  h0 !! opts = Some (Obj props) ->
  copyOptions opts sourceText h0
  = (Ok (length h0),
     h0 ++ Obj (<["data" := VStr sourceText]> props)
        :: [Obj {["data" := VStr sourceText]}]).
Proof.
  intros E. unfold copyOptions, bind, alloc. cbv beta iota.
  rewrite (object_assign_run _ _ _ props ∅).
  - rewrite (frame_insert_renderOpts h0 ∅ []). cbv beta iota.
    rewrite (frame_snoc h0 (props ∪ ∅) []), (frame_length h0 (props ∪ ∅) []).
    cbn [app length].
    rewrite (object_assign_run _ _ _ {["data" := VStr sourceText]} (props ∪ ∅)).
    + rewrite frame_insert_renderOpts.
      rewrite (right_id_L ∅ (∪) props), <- insert_union_singleton_l. reflexivity.
    + apply (frame_lookup_rest h0 (props ∪ ∅) [Obj {["data" := VStr sourceText]}] 0).
    + apply frame_lookup_renderOpts.
  - apply lookup_app_l_Some, E.
  - apply list_lookup_middle. reflexivity.
Qed.

Lemma resolveIncludePaths_run (opts : loc) (fileName : jsstring) (context : PluginCtx) :
  resolveIncludePaths path (length h0) opts fileName context (h0 ++ Obj rp :: rest)
  = let items :=
      default [] (array_items (h0 ++ Obj rp :: rest)
                    (prop_of (h0 ++ Obj rp :: rest) opts "includePaths"))
      ++ [VStr (path_dirname path fileName)] in
    let copy := (length h0 + S (length rest))%nat in
    match map_items (absoluteIncludePath path context) items with
    | Ok incl =>
        (Ok tt,
         h0 ++ Obj (<["includePaths" := VRef (length h0 + S (length (rest ++ [Arr items])))%nat]>
                      (<["includePaths" := VRef copy]> rp))
            :: ((rest ++ [Arr items]) ++ [Arr incl]))
    | Throw e =>
        (Throw e, h0 ++ Obj (<["includePaths" := VRef copy]> rp) :: (rest ++ [Arr items]))
    end.
Proof.
  unfold resolveIncludePaths, bind.
  run get_prop_run. run as_array_run. run alloc_run. run set_prop_run.
  run get_prop_run. rewrite prop_of_renderOpts, lookup_insert_eq, default_Some.
  run array_push_last.
  run get_prop_run. rewrite prop_of_renderOpts, lookup_insert_eq, default_Some.
  run array_map_run. rewrite array_items_last.
  destruct (map_items _ _) as [incl|e]; [|reflexivity].
  rewrite frame_length, frame_snoc, set_prop_run. reflexivity.
Qed.

Lemma injectGlobals_run (opts : loc) (context : PluginCtx) :
  injectGlobals path (length h0) opts context (h0 ++ Obj rp :: rest)
  = let globals :=
      default [] (array_items (h0 ++ Obj rp :: rest)
                    (prop_of (h0 ++ Obj rp :: rest) opts "injectGlobalPaths")) in
    if Z.of_nat (length globals) >? 0 then
      match map_items (importStatement path context (length h0)
                         (h0 ++ Obj rp :: (rest ++ [Arr globals]))) globals with
      | Ok statements =>
          (Ok tt,
           h0 ++ Obj (<["data" :=
                          VStr (join_strings statements
                                ++ match default VUndefined (rp !! "data") with
                                   | VStr d => d
                                   | _ => []
                                   end)]> rp)
              :: ((rest ++ [Arr globals]) ++ [Arr statements]))
      | Throw e => (Throw e, h0 ++ Obj rp :: (rest ++ [Arr globals]))
      end
    else (Ok tt, h0 ++ Obj rp :: (rest ++ [Arr globals])).
Proof.
  unfold injectGlobals, bind.
  run get_prop_run. run as_array_run. run alloc_run.
  destruct (Z.of_nat (length _) >? 0); [|reflexivity].
  run array_map_run. rewrite array_items_last.
  destruct (map_items _ _) as [statements|e]; [|reflexivity].
  rewrite frame_length, frame_snoc. cbv beta iota.
  run as_array_run. rewrite array_items_last, default_Some.
  run get_prop_run. rewrite prop_of_renderOpts, set_prop_run. reflexivity.
Qed.

Lemma installImporter_run (context : PluginCtx) :
  installImporter (length h0) context (h0 ++ Obj rp :: rest)
  = if sys_has_resolveModuleId context then
      let user :=
        match default VUndefined (rp !! "importer") with
        | VFun f => [VFun f]
        | v => default [] (array_items (h0 ++ Obj rp :: (rest ++ [Arr []])) v)
        end in
      (Ok tt,
       h0 ++ Obj (<["importer" := VRef (length h0 + S (length rest))%nat]> rp)
          :: (rest ++ [Arr (user ++ [VFun ModuleImporter])]))
    else (Ok tt, h0 ++ Obj rp :: rest).
Proof.
  unfold installImporter. destruct (sys_has_resolveModuleId context); [|reflexivity].
  unfold bind. run alloc_run. run get_prop_run. rewrite prop_of_renderOpts.
  destruct (default VUndefined (rp !! "importer")) as [| | | | |f|l] eqn:E;
    try (run as_array_run;
         destruct (array_items _ _) as [items|]; cbv beta iota;
         [run array_push_last|unfold ret; cbv beta iota];
         run array_push_last; rewrite set_prop_run; reflexivity).
  run array_push_last. run array_push_last. rewrite set_prop_run. reflexivity.
Qed.

Lemma spread_in_last (items : list val) :
  spread_in (h0 ++ Obj rp :: (rest ++ [Arr items]))
    (VRef (length h0 + S (length rest))%nat) = Ok items.
Proof.
  unfold spread_in. rewrite frame_lookup_rest, lookup_last_cell. reflexivity.
Qed.

Lemma silenceLegacyApi_run :
  silenceLegacyApi (length h0) (h0 ++ Obj rp :: rest)
  = let v := default VUndefined (rp !! "silenceDeprecations") in
    if nullish v then
      (Ok tt,
       h0 ++ Obj (<["silenceDeprecations" :=
                      VRef (length h0 + S (length (rest ++ [Arr []])))%nat]> rp)
          :: ((rest ++ [Arr []]) ++ [Arr ([] ++ [VStr (lit "legacy-js-api")])]))
    else
      match spread_in (h0 ++ Obj rp :: rest) v with
      | Ok items =>
          (Ok tt,
           h0 ++ Obj (<["silenceDeprecations" := VRef (length h0 + S (length rest))%nat]> rp)
              :: (rest ++ [Arr (items ++ [VStr (lit "legacy-js-api")])]))
      | Throw e => (Throw e, h0 ++ Obj rp :: rest)
      end.
Proof.
  unfold silenceLegacyApi, bind. run get_prop_run. rewrite prop_of_renderOpts.
  cbv zeta.
  destruct (default VUndefined (rp !! "silenceDeprecations")) as [| | | | | |l] eqn:E;
    cbn [nullish];
    try (unfold ret; cbv beta iota; run spread_run;
         destruct (spread_in _ _) as [items|e]; [|reflexivity];
         run alloc_run; rewrite set_prop_run; reflexivity).
  - unfold bind. run alloc_run. unfold ret. cbv beta iota.
    run spread_run. rewrite spread_in_last.
    run alloc_run. rewrite set_prop_run. reflexivity.
  - unfold bind. run alloc_run. unfold ret. cbv beta iota.
    run spread_run. rewrite spread_in_last.
    run alloc_run. rewrite set_prop_run. reflexivity.
Qed.

End Stages.

(** ** [getRenderOptions] *)

(** A property of an options object built by inserts and deletes. *)
Ltac lookup_key :=
  repeat first
    [ rewrite lookup_insert_eq
    | rewrite lookup_delete_eq
    | rewrite lookup_insert_ne by done
    | rewrite lookup_delete_ne by done ];
  reflexivity.

Section RenderOptionsRun.

Variable path : NodePath.

Lemma map_items_absolute (context : PluginCtx) (items out : list val) :
  map_items (absoluteIncludePath path context) items = Ok out ->
  forallb is_VStr out = true /\ length out = length items.
Proof.
  revert out; induction items as [|x items IH]; intros out; cbn [map_items].
  - intros [= <-]. split; reflexivity.
  - destruct (absoluteIncludePath path context x) as [y|e] eqn:Ex; [|discriminate].
    destruct (map_items _ items) as [ys|e]; [|discriminate].
    intros [= <-]. destruct (IH ys eq_refl) as [H1 H2].
    cbn [forallb length]. rewrite H1, H2. split; [|reflexivity].
    unfold absoluteIncludePath in Ex. destruct x; try discriminate.
    destruct (path_isAbsolute path s); injection Ex as <-; reflexivity.
Qed.

Lemma map_items_strings {B} (f : val -> outcome B) (items : list val) :
  (forall s, exists y, f (VStr s) = Ok y) ->
  forallb is_VStr items = true ->
  exists out, map_items f items = Ok out.
Proof.
  intros Hf. induction items as [|x items IH]; cbn [map_items forallb].
  - eauto.
  - rewrite andb_true_iff. intros [Hx Hs]. destruct x; try discriminate.
    destruct (Hf s) as [y ->]. destruct (IH Hs) as [ys ->]. eauto.
Qed.

Lemma forallb_snoc {A} (f : A -> bool) (l : list A) (x : A) :
  forallb f (l ++ [x]) = forallb f l && f x.
Proof. rewrite forallb_app. cbn. rewrite andb_true_r. reflexivity. Qed.

(** A well-typed list of paths, read in any extension of the heap. *)
Lemma optional_string_array_items (h ext : heap) (v : val) :
  optional_string_array h v = true ->
  forallb is_VStr (default [] (array_items (h ++ ext) v)) = true.
Proof.
  unfold optional_string_array, array_items. destruct v; try reflexivity.
  destruct (h !! l) as [[props|items]|] eqn:E; try discriminate;
    rewrite (lookup_app_l_Some _ _ _ _ E); [reflexivity|]. intros H; exact H.
Qed.

Lemma includePaths_total (context : PluginCtx) (h ext : heap) (v : val) (d : jsstring) :
  optional_string_array h v = true ->
  exists out,
    map_items (absoluteIncludePath path context)
      (default [] (array_items (h ++ ext) v) ++ [VStr d]) = Ok out.
Proof.
  intros H. apply map_items_strings.
  - intros s. unfold absoluteIncludePath. destruct (path_isAbsolute path s); eauto.
  - rewrite forallb_snoc, (optional_string_array_items h ext v H). reflexivity.
Qed.

Lemma importStatement_total (context : PluginCtx) (ro : loc) (h1 h ext : heap) (v : val) :
  optional_string_array h v = true ->
  exists out,
    map_items (importStatement path context ro h1)
      (default [] (array_items (h ++ ext) v)) = Ok out.
Proof.
  intros H. apply map_items_strings.
  - intros s. unfold importStatement. eauto.
  - apply optional_string_array_items, H.
Qed.

Lemma spread_total (h ext : heap) (v : val) :
  optional_array h v = true -> nullish v = false ->
  spread_in (h ++ ext) v = Ok (default [] (array_items h v)).
Proof.
  unfold optional_array, spread_in, array_items.
  destruct v; try discriminate.
  destruct (h !! l) as [[props|items]|] eqn:E; try discriminate.
  intros _ _. rewrite (lookup_app_l_Some _ _ _ _ E). reflexivity.
Qed.

Lemma well_typed_fields (h0 : heap) (opts : loc) (props : gmap string val) :
  h0 !! opts = Some (Obj props) ->
  well_typed_options h0 opts = true ->
  optional_string_array h0 (default VUndefined (props !! "includePaths")) = true
  /\ optional_string_array h0 (default VUndefined (props !! "injectGlobalPaths")) = true
  /\ optional_array h0 (default VUndefined (props !! "silenceDeprecations")) = true.
Proof.
  intros E. unfold well_typed_options, prop_of. rewrite E.
  rewrite !andb_true_iff. tauto.
Qed.

Lemma getRenderOptions_run (h0 : heap) (opts : loc) (props : gmap string val)
    (sourceText fileName : jsstring) (context : PluginCtx) :
  h0 !! opts = Some (Obj props) ->
  exists rp rest,
    snd (getRenderOptions path opts sourceText fileName context h0)
    = h0 ++ Obj rp :: rest
    /\ match fst (getRenderOptions path opts sourceText fileName context h0) with
       | Ok ro =>
           ro = length h0
           /\ rp !! "injectGlobalPaths" = None
           /\ rp !! "file" = None
           /\ (exists li incl ext,
                  rp !! "includePaths" = Some (VRef li)
                  /\ (length h0 < li)%nat
                  /\ (h0 ++ Obj rp :: rest) !! li = Some (Arr incl)
                  /\ map_items (absoluteIncludePath path context)
                       (default [] (array_items (h0 ++ ext)
                                      (default VUndefined (props !! "includePaths")))
                        ++ [VStr (path_dirname path fileName)]) = Ok incl)
           /\ (exists ls sil,
                  rp !! "silenceDeprecations" = Some (VRef ls)
                  /\ (length h0 < ls)%nat
                  /\ (h0 ++ Obj rp :: rest) !! ls
                     = Some (Arr (sil ++ [VStr (lit "legacy-js-api")]))
                  /\ if nullish (default VUndefined (props !! "silenceDeprecations"))
                     then sil = []
                     else exists ext,
                         spread_in (h0 ++ ext)
                           (default VUndefined (props !! "silenceDeprecations")) = Ok sil)
       | Throw _ => well_typed_options h0 opts = false
       end.
Proof.
  intros E. unfold getRenderOptions, bind.
  rewrite (copyOptions_run h0 opts props sourceText E). cbv beta iota.
  run set_prop_run. run resolveIncludePaths_run. cbn [app length].
  rewrite (prop_of_app _ _ _ _ "includePaths" E).
  destruct (map_items _ _) as [incl|e] eqn:Hinc; cbv beta iota.
  2:{ cbn [fst snd]. eexists _, _. split; [reflexivity|].
      apply not_true_is_false. intros Hwt.
      destruct (well_typed_fields h0 opts props E Hwt) as (Hi & _).
      match type of Hinc with
      | map_items _ (default [] (array_items (h0 ++ ?ext) ?v) ++ [VStr ?d]) = _ =>
          destruct (includePaths_total context h0 ext v d Hi) as [out Hout]
      end.
      congruence. }
  run injectGlobals_run. cbn [app length].
  rewrite (prop_of_app _ _ _ _ "injectGlobalPaths" E).
  destruct (Z.of_nat (length _) >? 0);
    [match goal with
     | |- context [map_items ?f ?l] => destruct (map_items f l) as [stmts|e] eqn:Hglob
     end|].
  2:{ cbn [fst snd]. eexists _, _. split; [reflexivity|].
      apply not_true_is_false. intros Hwt.
      destruct (well_typed_fields h0 opts props E Hwt) as (_ & Hg & _).
      match type of Hglob with
      | map_items (importStatement _ _ ?ro ?h1)
          (default [] (array_items (h0 ++ ?ext) ?v)) = _ =>
          destruct (importStatement_total context ro h1 h0 ext v Hg) as [out Hout]
      end.
      congruence. }
  all: cbv beta iota.
  all: run delete_prop_run; run delete_prop_run; run installImporter_run.
  all: cbn [app length].
  all: destruct (sys_has_resolveModuleId context); cbv beta iota.
  all: run silenceLegacyApi_run.
  all: cbn [app length].
  all: repeat first
         [ rewrite lookup_insert_eq
         | rewrite lookup_insert_ne by done
         | rewrite lookup_delete_ne by done ].
  all: destruct (nullish (default VUndefined (props !! "silenceDeprecations"))) eqn:Hnull;
    [|match goal with
      | |- context [spread_in ?h ?v] => destruct (spread_in h v) as [sil|e] eqn:Hsp
      end].
  all: cbv beta iota; unfold ret; cbn [fst snd]; eexists _, _; (split; [reflexivity|]).
  all: try (apply not_true_is_false; intros Hwt;
            destruct (well_typed_fields h0 opts props E Hwt) as (_ & _ & Hs);
            match type of Hsp with
            | spread_in (?h ++ ?ext) ?v = _ =>
                rewrite (spread_total h ext v Hs Hnull) in Hsp
            end;
            discriminate).
  all: split; [reflexivity|].
  all: split; [lookup_key|].
  all: split; [lookup_key|].
  all: split;
    [eexists _, _, _; split; [lookup_key|]; split; [lia|];
     split; [rewrite frame_lookup_rest; reflexivity|exact Hinc]
    |].
  all: first
    [ eexists _, []; split; [lookup_key|]; split; [lia|];
      split; [rewrite frame_lookup_rest; reflexivity|reflexivity]
    | eexists _, _; split; [lookup_key|]; split; [lia|];
      split; [rewrite frame_lookup_rest; reflexivity|eexists; exact Hsp] ].
Qed.

End RenderOptionsRun.

Lemma well_typed_is_object (h : heap) (opts : loc) :
  well_typed_options h opts = true -> exists props, h !! opts = Some (Obj props).
Proof.
  unfold well_typed_options. destruct (h !! opts) as [[props|items]|]; try discriminate.
  eauto.
Qed.

(** C7. [getRenderOptions] never mutates the user's options: after a call,
    whether it returns or throws, every cell of the heap it was given is as
    before, so the options object and the arrays it refers to
    ([includePaths], [injectGlobalPaths], [silenceDeprecations], [importer])
    read as they did; everything new lies behind the old heap. *)
Theorem getRenderOptions_never_mutates (path : NodePath) (h : heap) (opts : loc)
    (props : gmap string val) (sourceText fileName : jsstring) (context : PluginCtx) :
  h !! opts = Some (Obj props) ->
  h `prefix_of` snd (getRenderOptions path opts sourceText fileName context h)
  /\ (forall l c, h !! l = Some c ->
        snd (getRenderOptions path opts sourceText fileName context h) !! l = Some c)
  /\ snd (getRenderOptions path opts sourceText fileName context h) !! opts
     = Some (Obj props)
  /\ (forall k,
        prop_of (snd (getRenderOptions path opts sourceText fileName context h)) opts k
        = prop_of h opts k)
  /\ (forall v items, array_items h v = Some items ->
        array_items (snd (getRenderOptions path opts sourceText fileName context h)) v
        = Some items).
Proof.
  intros E.
  destruct (getRenderOptions_run path h opts props sourceText fileName context E)
    as (rp & rest & -> & _).
  split; [eexists; reflexivity|].
  split; [intros l c Hl; apply lookup_app_l_Some, Hl|].
  split; [apply lookup_app_l_Some, E|].
  split.
  - intros k. rewrite (prop_of_app _ _ _ _ k E). unfold prop_of. rewrite E. reflexivity.
  - intros v items Hv. apply array_items_app, Hv.
Qed.

Lemma getRenderOptions_never_mutates_witness :
  sample_heap
    `prefix_of` snd (getRenderOptions posix_path 0%nat (lit "b{}")
                       (lit "/proj/src/a.scss") sample_ctx sample_heap).
Proof.
  refine (proj1 (getRenderOptions_never_mutates posix_path sample_heap 0%nat _
                   (lit "b{}") (lit "/proj/src/a.scss") sample_ctx _)).
  reflexivity.
Defined.

(** C2, amended. For well-typed options, the object that [getRenderOptions]
    returns has neither [injectGlobalPaths] nor [file]; it always has
    [includePaths], an array of strings. *)
Theorem getRenderOptions_fields (path : NodePath) (h : heap) (opts : loc)
    (sourceText fileName : jsstring) (context : PluginCtx) :
  well_typed_options h opts = true ->
  exists ro rp li incl,
    fst (getRenderOptions path opts sourceText fileName context h) = Ok ro
    /\ snd (getRenderOptions path opts sourceText fileName context h) !! ro
       = Some (Obj rp)
    /\ rp !! "injectGlobalPaths" = None
    /\ rp !! "file" = None
    /\ rp !! "includePaths" = Some (VRef li)
    /\ snd (getRenderOptions path opts sourceText fileName context h) !! li
       = Some (Arr incl)
    /\ forallb is_VStr incl = true.
Proof.
  intros Hwt. destruct (well_typed_is_object h opts Hwt) as [props E].
  destruct (getRenderOptions_run path h opts props sourceText fileName context E)
    as (rp & rest & Hsnd & Hfst).
  destruct (fst (getRenderOptions path opts sourceText fileName context h)) as [ro|e];
    [|congruence].
  destruct Hfst as (-> & Hg & Hf & (li & incl & ext & Hi & _ & Hli & Hmap) & _).
  exists (length h), rp, li, incl. rewrite Hsnd.
  split; [reflexivity|]. split; [apply list_lookup_middle; reflexivity|].
  repeat (split; [assumption|]).
  apply (map_items_absolute path context _ _ Hmap).
Qed.

Lemma getRenderOptions_fields_witness :
  exists ro rp li incl,
    fst (getRenderOptions posix_path 0%nat (lit "b{}") (lit "/proj/src/a.scss")
           sample_ctx sample_heap) = Ok ro
    /\ snd (getRenderOptions posix_path 0%nat (lit "b{}") (lit "/proj/src/a.scss")
              sample_ctx sample_heap) !! ro = Some (Obj rp)
    /\ rp !! "injectGlobalPaths" = None
    /\ rp !! "file" = None
    /\ rp !! "includePaths" = Some (VRef li)
    /\ snd (getRenderOptions posix_path 0%nat (lit "b{}") (lit "/proj/src/a.scss")
              sample_ctx sample_heap) !! li = Some (Arr incl)
    /\ forallb is_VStr incl = true.
Proof.
  apply (getRenderOptions_fields posix_path sample_heap 0%nat (lit "b{}")
           (lit "/proj/src/a.scss") sample_ctx).
  vm_compute. reflexivity.
Defined.

(** C2 as stated fails: [includePaths], one of the two extension fields of
    [PluginOptions], is in the returned options; here it refers to the array
    of "/proj/styles" and "/proj/src". *)
Lemma getRenderOptions_returns_includePaths :
  fst (getRenderOptions posix_path 0%nat (lit "b{}") (lit "/proj/src/a.scss")
         sample_ctx sample_heap) = Ok 4%nat
  /\ (exists rp,
         snd (getRenderOptions posix_path 0%nat (lit "b{}") (lit "/proj/src/a.scss")
                sample_ctx sample_heap) !! 4%nat = Some (Obj rp)
         /\ rp !! "includePaths" = Some (VRef 7%nat))
  /\ snd (getRenderOptions posix_path 0%nat (lit "b{}") (lit "/proj/src/a.scss")
            sample_ctx sample_heap) !! 7%nat
     = Some (Arr [VStr (lit "/proj/styles"); VStr (lit "/proj/src")]).
Proof.
  split; [vm_compute; reflexivity|]. split; [|vm_compute; reflexivity].
  eexists. split; vm_compute; reflexivity.
Qed.

Lemma count_legacy_snoc (items : list val) :
  count_legacy (items ++ [VStr (lit "legacy-js-api")]) = S (count_legacy items).
Proof.
  induction items as [|v items IH]; [reflexivity|].
  cbn [app count_legacy]. rewrite IH.
  destruct v; try reflexivity. destruct (jsstring_eqb s _); reflexivity.
Qed.

(** C8. For well-typed options, [silenceDeprecations] of the returned
    options is a new array: the user's list (empty when the field is
    missing) with the one entry "legacy-js-api" appended at the end. The
    append does not look at the list: the result holds one more
    "legacy-js-api" than the user's list, a duplicate when it had one. *)
Theorem getRenderOptions_silenceDeprecations (path : NodePath) (h : heap) (opts : loc)
    (sourceText fileName : jsstring) (context : PluginCtx) :
  well_typed_options h opts = true ->
  exists ro rp ls silenced,
    fst (getRenderOptions path opts sourceText fileName context h) = Ok ro
    /\ snd (getRenderOptions path opts sourceText fileName context h) !! ro
       = Some (Obj rp)
    /\ rp !! "silenceDeprecations" = Some (VRef ls)
    /\ (length h <= ls)%nat
    /\ snd (getRenderOptions path opts sourceText fileName context h) !! ls
       = Some (Arr silenced)
    /\ silenced = user_silenceDeprecations h opts ++ [VStr (lit "legacy-js-api")]
    /\ count_legacy silenced = S (count_legacy (user_silenceDeprecations h opts)).
Proof.
  intros Hwt. destruct (well_typed_is_object h opts Hwt) as [props E].
  destruct (well_typed_fields h opts props E Hwt) as (_ & _ & Hs).
  destruct (getRenderOptions_run path h opts props sourceText fileName context E)
    as (rp & rest & Hsnd & Hfst).
  destruct (fst (getRenderOptions path opts sourceText fileName context h)) as [ro|e];
    [|congruence].
  destruct Hfst as (-> & _ & _ & _ & (ls & sil & Hk & Hlt & Hls & Hsil)).
  exists (length h), rp, ls, (sil ++ [VStr (lit "legacy-js-api")]). rewrite Hsnd.
  split; [reflexivity|]. split; [apply list_lookup_middle; reflexivity|].
  split; [exact Hk|]. split; [lia|]. split; [exact Hls|].
  assert (Huser : sil = user_silenceDeprecations h opts).
  { unfold user_silenceDeprecations, prop_of. rewrite E.
    destruct (nullish (default VUndefined (props !! "silenceDeprecations"))) eqn:Hn.
    - subst sil. destruct (default VUndefined (props !! "silenceDeprecations"));
        try discriminate; reflexivity.
    - destruct Hsil as [ext Hsp].
      rewrite (spread_total h ext _ Hs Hn) in Hsp. congruence. }
  subst sil. split; [reflexivity|apply count_legacy_snoc].
Qed.

Lemma getRenderOptions_silenceDeprecations_witness :
  exists ro rp ls silenced,
    fst (getRenderOptions posix_path 0%nat (lit "b{}") (lit "/proj/src/a.scss")
           sample_ctx sample_heap) = Ok ro
    /\ snd (getRenderOptions posix_path 0%nat (lit "b{}") (lit "/proj/src/a.scss")
              sample_ctx sample_heap) !! ro = Some (Obj rp)
    /\ rp !! "silenceDeprecations" = Some (VRef ls)
    /\ (length sample_heap <= ls)%nat
    /\ snd (getRenderOptions posix_path 0%nat (lit "b{}") (lit "/proj/src/a.scss")
              sample_ctx sample_heap) !! ls = Some (Arr silenced)
    /\ silenced
       = user_silenceDeprecations sample_heap 0%nat ++ [VStr (lit "legacy-js-api")]
    /\ count_legacy silenced
       = S (count_legacy (user_silenceDeprecations sample_heap 0%nat)).
Proof.
  apply (getRenderOptions_silenceDeprecations posix_path sample_heap 0%nat (lit "b{}")
           (lit "/proj/src/a.scss") sample_ctx).
  vm_compute. reflexivity.
Defined.

(** In the sample the user's list is ["legacy-js-api"] already, and the
    returned list has it twice. *)
Example getRenderOptions_duplicate :
  snd (getRenderOptions posix_path 0%nat (lit "b{}") (lit "/proj/src/a.scss")
         sample_ctx sample_heap) !! 11%nat
  = Some (Arr [VStr (lit "legacy-js-api"); VStr (lit "legacy-js-api")]).
Proof. vm_compute. reflexivity. Qed.

(** * Further properties *)

(** * More properties of the plugin *)

(** ** [split] and [join] *)

Lemma split_clean (sep : N) (s : jsstring) : ~ In sep s -> split sep s = [s].
Proof.
  induction s as [|c s IH]; [reflexivity|]. intros H. cbn [split].
  destruct (N.eqb_spec c sep) as [->|Hne]; [destruct H; left; reflexivity|].
  rewrite IH; [reflexivity|]. intros Hin. apply H. right. exact Hin.
Qed.

Lemma split_app_sep (sep : N) (a b : jsstring) :
  split sep (a ++ sep :: b) = split sep a ++ split sep b.
Proof.
  induction a as [|c a IH]; cbn [app split].
  - rewrite N.eqb_refl. reflexivity.
  - destruct (N.eqb_spec c sep) as [->|Hne]; rewrite IH; [reflexivity|].
    pose proof (split_nonempty sep a) as Hn.
    destruct (split sep a) as [|seg segs]; [contradiction|reflexivity].
Qed.

(** Splitting what [join] built gives the segments back. *)
Lemma split_join (sep : N) (segs : list jsstring) :
  segs <> [] ->
  Forall (fun seg => ~ In sep seg) segs ->
  split sep (join [sep] segs) = segs.
Proof.
  induction segs as [|x segs IH]; [congruence|]. intros _ H.
  inversion H as [|? ? Hx Hs]; subst. destruct segs as [|y segs].
  - cbn [join]. apply split_clean, Hx.
  - change (join [sep] (x :: y :: segs)) with (x ++ sep :: join [sep] (y :: segs)).
    rewrite split_app_sep, (split_clean sep x Hx).
    rewrite IH; [reflexivity|discriminate|exact Hs].
Qed.

Lemma join_snoc (sep : jsstring) (segs : list jsstring) (x : jsstring) :
  segs <> [] -> join sep (segs ++ [x]) = join sep segs ++ sep ++ x.
Proof.
  induction segs as [|y segs IH]; [congruence|]. intros _.
  destruct segs as [|z segs]; [reflexivity|].
  change (join sep ((y :: z :: segs) ++ [x]))
    with (y ++ sep ++ join sep ((z :: segs) ++ [x])).
  rewrite IH by discriminate.
  change (join sep (y :: z :: segs)) with (y ++ sep ++ join sep (z :: segs)).
  rewrite <- !app_assoc. reflexivity.
Qed.

Lemma split_last (sep : N) (s : jsstring) :
  exists init l, split sep s = init ++ [l].
Proof.
  pose proof (split_nonempty sep s) as Hn.
  destruct (exists_last Hn) as (init & l & ->). eauto.
Qed.

Lemma Forall_app_l {A} (P : A -> Prop) (l1 l2 : list A) :
  Forall P (l1 ++ l2) -> Forall P l1.
Proof. rewrite Forall_app. tauto. Qed.

(** ** [createResultsId] *)

Lemma createResultsId_parts (fileName : jsstring) (init : list jsstring) (l : jsstring) :
  split 46 fileName = init ++ [l] ->
  createResultsId fileName = join (lit ".") (init ++ [lit "css"]).
Proof.
  intros E. unfold createResultsId. rewrite E. cbv zeta. f_equal.
  rewrite length_app. cbn [length].
  replace (length init + 1 - 1)%nat with (length init + 0)%nat by lia.
  rewrite insert_app_r. reflexivity.
Qed.

Lemma createResultsId_dot (stem ext : jsstring) :
  ~ In 46%N ext ->
  createResultsId (stem ++ lit "." ++ ext) = stem ++ lit ".css".
Proof.
  intros Hext. change (lit "." ++ ext) with (46%N :: ext).
  rewrite (createResultsId_parts _ (split 46 stem) ext).
  - change (lit ".") with [46%N]. rewrite join_snoc by apply split_nonempty.
    rewrite join_split. reflexivity.
  - rewrite split_app_sep, (split_clean 46 ext Hext). reflexivity.
Qed.

(** The extension, the part after the last dot, is replaced by "css"; dots
    before the last one stay. *)
Theorem createResultsId_extension (stem ext : jsstring) :
  ~ In 46%N ext ->
  createResultsId (stem ++ lit "." ++ ext) = stem ++ lit ".css".
Proof. exact (createResultsId_dot stem ext). Qed.

Lemma createResultsId_extension_witness :
  createResultsId (lit "src/button.v2" ++ lit "." ++ lit "scss")
  = lit "src/button.v2" ++ lit ".css".
Proof.
  apply (createResultsId_extension (lit "src/button.v2") (lit "scss")).
  vm_compute. intuition discriminate.
Defined.

(** A name without any dot is replaced as a whole: the result is "css",
    whatever the name. *)
Theorem createResultsId_no_dot (fileName : jsstring) :
  ~ In 46%N fileName -> createResultsId fileName = lit "css".
Proof.
  intros H. rewrite (createResultsId_parts _ [] fileName); [reflexivity|].
  apply split_clean, H.
Qed.

Lemma createResultsId_no_dot_witness : createResultsId (lit "button") = lit "css".
Proof. apply createResultsId_no_dot. vm_compute. intuition discriminate. Defined.

(** [createResultsId] is idempotent. *)
Theorem createResultsId_idempotent (fileName : jsstring) :
  createResultsId (createResultsId fileName) = createResultsId fileName.
Proof.
  destruct (split_last 46 fileName) as (init & l & E).
  rewrite (createResultsId_parts fileName init l E).
  apply (createResultsId_parts _ init (lit "css")).
  change (lit ".") with [46%N]. apply split_join.
  - destruct init; discriminate.
  - apply Forall_app. split.
    + pose proof (split_no_sep 46 fileName) as H. rewrite E in H.
      apply (Forall_app_l _ _ _ H).
    + constructor; [|constructor]. vm_compute. intuition discriminate.
Qed.

(** ** [usePlugin] *)

Lemma startsWith_app (p s : jsstring) :
  startsWith p s = true <-> exists r, s = p ++ r.
Proof.
  revert s; induction p as [|x p IH]; intros s; cbn [startsWith].
  - split; [eauto|reflexivity].
  - destruct s as [|y s].
    + split; [discriminate|]. intros [r Hr]. discriminate.
    + rewrite andb_true_iff, N.eqb_eq, IH. split.
      * intros [-> [r ->]]. eauto.
      * intros [r [= -> ->]]. eauto.
Qed.

(** A name ends with a suffix, letter case apart, exactly when its tail has
    the suffix's lower-case form. *)
Lemma endsWith_ci_iff (suffix f : jsstring) :
  endsWith_ci suffix f = true
  <-> exists stem e, f = stem ++ e /\ lower <$> e = lower <$> suffix.
Proof.
  unfold endsWith_ci. rewrite startsWith_app. split.
  - intros [r Hr].
    assert (Hf : lower <$> f = rev r ++ (lower <$> suffix)).
    { rewrite <- (rev_involutive (lower <$> f)), Hr, rev_app_distr, rev_involutive.
      reflexivity. }
    exists (take (length (rev r)) f), (drop (length (rev r)) f).
    split; [symmetry; apply take_drop|].
    rewrite fmap_drop, Hf. apply drop_app_length.
  - intros (stem & e & -> & He).
    exists (rev (lower <$> stem)).
    rewrite fmap_app, rev_app_distr, He. reflexivity.
Qed.

Lemma lower_dot (c : N) : lower c = 46%N -> c = 46%N.
Proof.
  unfold lower. destruct (65 <=? c)%N eqn:E1; destruct (c <=? 90)%N eqn:E2;
    cbn [andb]; try tauto.
  apply N.leb_le in E1. lia.
Qed.

Lemma lower_letter_not_dot (c l : N) : lower c = l -> l <> 46%N -> c <> 46%N.
Proof. intros <- H ->. apply H. reflexivity. Qed.

(** The tail of a name that [usePlugin] accepts: a dot and four letters
    without a dot. *)
Lemma sass_extension (e suffix : jsstring) :
  suffix = lit ".scss" \/ suffix = lit ".sass" ->
  lower <$> e = lower <$> suffix ->
  exists ext, e = lit "." ++ ext /\ lower <$> ext = drop 1 suffix /\ ~ In 46%N ext.
Proof.
  intros Hs He.
  destruct e as [|d [|e1 [|e2 [|e3 [|e4 [|? ?]]]]]];
    try (destruct Hs as [-> | ->]; discriminate He).
  exists [e1; e2; e3; e4].
  assert (Hd : d = 46%N).
  { apply lower_dot. destruct Hs as [-> | ->]; injection He; auto. }
  subst d. split; [reflexivity|].
  destruct Hs as [-> | ->]; injection He as H1 H2 H3 H4;
    (split; [cbn; rewrite H1, H2, H3, H4; reflexivity|]);
    intros [H|[H|[H|[H|[]]]]]; subst;
    first [discriminate H1|discriminate H2|discriminate H3|discriminate H4].
Qed.

Lemma usePlugin_extension (fileName : val) :
  usePlugin fileName = true
  <-> exists stem ext,
        fileName = VStr (stem ++ lit "." ++ ext)
        /\ (lower <$> ext = lit "scss" \/ lower <$> ext = lit "sass").
Proof.
  unfold usePlugin. split.
  - destruct fileName as [| | | |f| |]; try discriminate.
    rewrite orb_true_iff, !endsWith_ci_iff.
    intros [(stem & e & -> & He)|(stem & e & -> & He)].
    + destruct (sass_extension e (lit ".scss") (or_introl eq_refl) He)
        as (ext & -> & Hext & _).
      exists stem, ext. split; [reflexivity|left; exact Hext].
    + destruct (sass_extension e (lit ".sass") (or_intror eq_refl) He)
        as (ext & -> & Hext & _).
      exists stem, ext. split; [reflexivity|right; exact Hext].
  - intros (stem & ext & -> & Hext).
    rewrite orb_true_iff, !endsWith_ci_iff.
    destruct Hext as [H|H]; [left|right]; exists stem, (lit "." ++ ext);
      (split; [reflexivity|]);
      change (lower <$> lit "." ++ ext) with (46%N :: (lower <$> ext));
      rewrite H; reflexivity.
Qed.

(** [usePlugin] accepts exactly the strings that end in a dot and "scss" or
    "sass", in any case of letters; the part before the dot may be empty, and
    a value that is no string is refused. *)
Theorem usePlugin_iff (fileName : val) :
  usePlugin fileName = true
  <-> exists stem ext,
        fileName = VStr (stem ++ lit "." ++ ext)
        /\ (lower <$> ext = lit "scss" \/ lower <$> ext = lit "sass").
Proof. exact (usePlugin_extension fileName). Qed.

(** For a file that [usePlugin] accepts, [createResultsId] replaces the
    extension by "css": the id is the name without its last four letters,
    followed by "css". *)
Theorem usePlugin_createResultsId (fileName : jsstring) :
  usePlugin (VStr fileName) = true ->
  createResultsId fileName
  = take (length fileName - 4) fileName ++ lit "css".
Proof.
  intros H. apply usePlugin_extension in H as (stem & ext & Heq & Hext).
  assert (Hname : fileName = stem ++ lit "." ++ ext) by congruence.
  subst fileName. clear Heq.
  assert (Hlen : length ext = 4%nat).
  { destruct Hext as [H|H]; apply (f_equal length) in H;
      rewrite length_fmap in H; exact H. }
  assert (Hdot : ~ In 46%N ext).
  { intros Hin. apply (in_map lower) in Hin.
    change (map lower ext) with (lower <$> ext) in Hin.
    destruct Hext as [H|H]; rewrite H in Hin; vm_compute in Hin;
      intuition discriminate. }
  rewrite (createResultsId_dot stem ext Hdot).
  change (lit "." ++ ext) with ([46%N] ++ ext).
  rewrite app_assoc, !length_app, Hlen.
  replace (length stem + length [46%N] + 4 - 4)%nat with (length (stem ++ [46%N]))
    by (rewrite length_app; lia).
  rewrite take_app_length, <- app_assoc. reflexivity.
Qed.

Lemma usePlugin_createResultsId_witness :
  createResultsId (lit "Foo.SASS")
  = take (length (lit "Foo.SASS") - 4) (lit "Foo.SASS") ++ lit "css".
Proof. apply (usePlugin_createResultsId (lit "Foo.SASS")). reflexivity. Defined.

(** ** [formatMessage] *)

Lemma split_head (sep : N) (s first : jsstring) (more : list jsstring) :
  split sep s = first :: more ->
  ~ In sep first
  /\ ((more = [] /\ s = first) \/ exists rest, s = first ++ sep :: rest).
Proof.
  revert first more; induction s as [|c s IH]; intros first more; cbn [split].
  - intros [= <- <-]. split; [intros []|left; split; reflexivity].
  - destruct (N.eqb_spec c sep) as [->|Hne].
    + intros [= <- <-]. split; [intros []|right; exists s; reflexivity].
    + destruct (split sep s) as [|seg segs] eqn:E.
      * destruct (split_nonempty sep s E).
      * intros [= <- <-]. destruct (IH seg segs eq_refl) as [Hseg Hcase]. split.
        -- intros [H|H]; [congruence|contradiction].
        -- destruct Hcase as [[-> ->]|[rest ->]]; [left; split; reflexivity|].
           right. exists rest. reflexivity.
Qed.

(** The message text is the part of the error message before the first
    "╷": it holds no "╷", the message continues it with a "╷" or not at
    all, and a message without "╷" is kept whole. *)
Theorem formatMessage_prefix (input : jsstring) :
  ~ In 9591%N (formatMessage input)
  /\ (input = formatMessage input
      \/ exists rest, input = formatMessage input ++ 9591%N :: rest)
  /\ (~ In 9591%N input -> formatMessage input = input).
Proof.
  unfold formatMessage. split; [|split].
  - destruct (split 9591 input) as [|first more] eqn:E; [intros []|].
    apply (split_head _ _ _ _ E).
  - destruct (split 9591 input) as [|first more] eqn:E;
      [destruct (split_nonempty _ _ E)|].
    destruct (split_head _ _ _ _ E) as [_ [[_ ->]|[rest ->]]]; eauto.
  - intros H. rewrite (split_clean _ _ H). reflexivity.
Qed.

(** ** [formatFileName] *)

Lemma substring_from_drop (s : jsstring) (a : Z) :
  substring_from s a = drop (Z.to_nat a) s.
Proof.
  unfold substring_from, substring, clamp, str_length.
  replace (Z.max 0 (Z.min (Z.of_nat (length s)) (Z.of_nat (length s))))
    with (Z.of_nat (length s)) by lia.
  set (a' := Z.max 0 (Z.min a (Z.of_nat (length s)))).
  replace (Z.min a' (Z.of_nat (length s))) with a' by lia.
  replace (Z.max a' (Z.of_nat (length s))) with (Z.of_nat (length s)) by lia.
  rewrite take_ge by (rewrite length_drop; lia).
  destruct (Z.le_gt_cases a (Z.of_nat (length s))) as [Hle|Hgt].
  - f_equal. lia.
  - rewrite !drop_ge by lia. reflexivity.
Qed.

Lemma remove_first_prefix (pat s : jsstring) :
  startsWith pat s = true -> remove_first pat s = drop (length pat) s.
Proof. intros H. destruct s; cbn [remove_first]; rewrite H; reflexivity. Qed.

(** The display path is never longer than 83 characters: at most 80 of the
    file name, after "..." when it was cut. *)
Theorem formatFileName_length (rootDir fileName : jsstring) :
  (length (formatFileName rootDir fileName) <= 83)%nat.
Proof.
  unfold formatFileName.
  destruct rootDir as [|r rootDir]; [cbn; lia|].
  destruct fileName as [|f fileName]; [cbn; lia|].
  cbv zeta. match goal with |- context [str_length ?x >? 80] => set (name := x) end.
  destruct (Z.gtb_spec (str_length name) 80) as [H|H]; unfold str_length in *.
  - rewrite length_app, substring_from_drop, length_drop. cbn. lia.
  - lia.
Qed.

(** For a file below the root directory, the display path is the path
    relative to the root: the root and one separator are stripped, and of a
    relative path of more than 80 characters the last 80 are kept, after
    "...". *)
Theorem formatFileName_relative (rootDir rel : jsstring) (sep : N) :
  rootDir <> [] ->
  sep = 47%N \/ sep = 92%N ->
  formatFileName rootDir (rootDir ++ sep :: rel)
  = if (Z.of_nat (length rel) >? 80)
    then lit "..." ++ drop (length rel - 80) rel
    else rel.
Proof.
  intros Hroot Hsep. unfold formatFileName.
  destruct rootDir as [|r rootDir]; [congruence|].
  change ((r :: rootDir) ++ sep :: rel) with (r :: (rootDir ++ sep :: rel)).
  cbv iota. change (r :: (rootDir ++ sep :: rel)) with ((r :: rootDir) ++ sep :: rel).
  rewrite remove_first_prefix by (apply startsWith_app; eauto).
  rewrite drop_app_length.
  assert (H0 : jsstring_eqb (charAt (sep :: rel) 0) (lit "/")
               || jsstring_eqb (charAt (sep :: rel) 0) (lit "\") = true).
  { destruct Hsep as [-> | ->]; reflexivity. }
  cbv zeta. rewrite H0, substring_from_drop.
  change (drop (Z.to_nat 1) (sep :: rel)) with rel. unfold str_length.
  destruct (Z.of_nat (length rel) >? 80); [|reflexivity].
  rewrite substring_from_drop. do 2 f_equal. lia.
Qed.

Lemma formatFileName_relative_witness :
  formatFileName (lit "/proj") (lit "/proj" ++ 47%N :: lit "src/a.scss")
  = if (Z.of_nat (length (lit "src/a.scss")) >? 80)
    then lit "..." ++ drop (length (lit "src/a.scss") - 80) (lit "src/a.scss")
    else lit "src/a.scss".
Proof.
  apply (formatFileName_relative (lit "/proj") (lit "src/a.scss") 47);
    [discriminate|left; reflexivity].
Defined.

(** ** [split_lines] *)

Lemma split_lines_nonempty (s : jsstring) : split_lines s <> [].
Proof.
  induction s as [|c s IH]; cbn [split_lines]; [discriminate|].
  destruct (N.eqb c 10); [discriminate|].
  destruct s as [|d s]; [discriminate|].
  destruct (N.eqb c 13 && N.eqb d 10); [discriminate|].
  destruct (split_lines (d :: s)); discriminate.
Qed.


Lemma split_lines_plain (l : jsstring) : plain_line l -> split_lines l = [l].
Proof.
  induction l as [|c l IH]; [reflexivity|]. intros [H10 H13].
  assert (Hl : plain_line l) by (split; intros H; [apply H10|apply H13]; right; exact H).
  cbn [split_lines].
  destruct (N.eqb_spec c 10) as [->|_]; [destruct H10; left; reflexivity|].
  destruct (N.eqb_spec c 13) as [->|_]; [destruct H13; left; reflexivity|].
  cbn [andb]. destruct l as [|d l]; [reflexivity|].
  rewrite (IH Hl). reflexivity.
Qed.

Lemma split_lines_lf (l rest : jsstring) :
  plain_line l -> split_lines (l ++ 10%N :: rest) = l :: split_lines rest.
Proof.
  induction l as [|c l IH]; [reflexivity|]. intros [H10 H13].
  assert (Hl : plain_line l) by (split; intros H; [apply H10|apply H13]; right; exact H).
  cbn [app split_lines].
  destruct (N.eqb_spec c 10) as [->|_]; [destruct H10; left; reflexivity|].
  destruct (N.eqb_spec c 13) as [->|_]; [destruct H13; left; reflexivity|].
  cbn [andb]. rewrite (IH Hl).
  destruct (l ++ 10%N :: rest) eqn:E; [destruct l; discriminate|reflexivity].
Qed.

Lemma split_lines_crlf (l rest : jsstring) :
  plain_line l -> split_lines (l ++ 13%N :: 10%N :: rest) = l :: split_lines rest.
Proof.
  induction l as [|c l IH]; [reflexivity|]. intros [H10 H13].
  assert (Hl : plain_line l) by (split; intros H; [apply H10|apply H13]; right; exact H).
  cbn [app split_lines].
  destruct (N.eqb_spec c 10) as [->|_]; [destruct H10; left; reflexivity|].
  destruct (N.eqb_spec c 13) as [->|_]; [destruct H13; left; reflexivity|].
  cbn [andb]. rewrite (IH Hl).
  destruct (l ++ 13%N :: 10%N :: rest) eqn:E; [destruct l; discriminate|reflexivity].
Qed.

(** Lines without line terminators, joined with "\n" or with "\r\n", are
    given back by the split that [loadDiagnostic] uses. *)
Theorem split_lines_join (ls : list jsstring) :
  ls <> [] ->
  Forall plain_line ls ->
  split_lines (join [10%N] ls) = ls
  /\ split_lines (join [13%N; 10%N] ls) = ls.
Proof.
  induction ls as [|l ls IH]; [congruence|]. intros _ H.
  inversion H as [|? ? Hl Hls]; subst. destruct ls as [|l2 ls].
  - cbn [join]. split; apply split_lines_plain, Hl.
  - destruct (IH ltac:(discriminate) Hls) as [IH1 IH2]. split.
    + change (join [10%N] (l :: l2 :: ls)) with (l ++ 10%N :: join [10%N] (l2 :: ls)).
      rewrite (split_lines_lf _ _ Hl), IH1. reflexivity.
    + change (join [13%N; 10%N] (l :: l2 :: ls))
        with (l ++ 13%N :: 10%N :: join [13%N; 10%N] (l2 :: ls)).
      rewrite (split_lines_crlf _ _ Hl), IH2. reflexivity.
Qed.

Lemma split_lines_join_witness :
  split_lines (join [10%N] [lit "a {"; lit "  color: red;"; lit "}"])
  = [lit "a {"; lit "  color: red;"; lit "}"]
  /\ split_lines (join [13%N; 10%N] [lit "a {"; lit "  color: red;"; lit "}"])
     = [lit "a {"; lit "  color: red;"; lit "}"].
Proof.
  apply (split_lines_join [lit "a {"; lit "  color: red;"; lit "}"]).
  - discriminate.
  - repeat constructor; vm_compute; intuition discriminate.
Defined.

(** ** [normalizePath], further *)

Lemma In_removelast {A} (x : A) (l : list A) : In x (removelast l) -> In x l.
Proof.
  induction l as [|y l IH]; [intros []|]. cbn [removelast].
  destruct l as [|z l]; [intros []|]. intros [H|H]; [left; exact H|right; apply IH, H].
Qed.

Lemma length_removelast_le {A} (l : list A) : (length (removelast l) <= length l)%nat.
Proof.
  induction l as [|y l IH]; [reflexivity|]. cbn [removelast].
  destruct l as [|z l]; cbn [length] in *; lia.
Qed.

Lemma strip_trailing_slash_cases (t : jsstring) :
  strip_trailing_slash t = t \/ strip_trailing_slash t = removelast t.
Proof.
  unfold strip_trailing_slash.
  destruct (bool_decide _); [destruct (keeps_trailing_slash t)|]; auto.
Qed.

Lemma length_trimStart_le (s : jsstring) : (length (trimStart s) <= length s)%nat.
Proof.
  destruct (trimStart_suffix s) as [k Hk]. rewrite Hk at 2. rewrite length_app. lia.
Qed.

Lemma length_trim_le (s : jsstring) : (length (trim s) <= length s)%nat.
Proof.
  unfold trim, trimEnd. rewrite length_rev.
  etransitivity; [apply length_trimStart_le|]. rewrite length_rev.
  apply length_trimStart_le.
Qed.

(** The result of [normalizePath] on an ASCII path outside the
    extended-length form holds no backslash. *)
Theorem normalizePath_no_backslash (str : jsstring) :
  is_ascii str = true ->
  EXTENDED_PATH_REGEX_test (trim str) = false ->
  ~ In 92%N (normalizePath str).
Proof.
  intros Ha He.
  rewrite (normalizePath_converted str He)
    by apply is_ascii_NON_ASCII_REGEX, is_ascii_trim, Ha.
  assert (H : ~ In 92%N (replace_SLASH_REGEX (trim str))).
  { unfold replace_SLASH_REGEX. intros Hin.
    change (slash_of <$> trim str) with (map slash_of (trim str)) in Hin.
    apply in_map_iff in Hin as (c & Hc & _). exact (slash_of_not_backslash c Hc). }
  destruct (strip_trailing_slash_cases (replace_SLASH_REGEX (trim str))) as [-> | ->];
    [exact H|]. intros Hin. apply H, In_removelast, Hin.
Qed.

Lemma normalizePath_no_backslash_witness :
  ~ In 92%N (normalizePath (lit " C:\Users\me\styles\ ")).
Proof.
  apply (normalizePath_no_backslash (lit " C:\Users\me\styles\ ")); reflexivity.
Defined.

(** [normalizePath] never makes a path longer. *)
Theorem normalizePath_length (str : jsstring) :
  (length (normalizePath str) <= length str)%nat.
Proof.
  destruct (EXTENDED_PATH_REGEX_test (trim str) || NON_ASCII_REGEX_test (trim str)) eqn:E.
  - rewrite (normalizePath_unchanged str E). apply length_trim_le.
  - apply orb_false_iff in E as [E1 E2]. rewrite (normalizePath_converted str E1 E2).
    pose proof (length_trim_le str) as Ht.
    assert (Hr : length (replace_SLASH_REGEX (trim str)) = length (trim str))
      by apply length_fmap.
    destruct (strip_trailing_slash_cases (replace_SLASH_REGEX (trim str))) as [-> | ->].
    + lia.
    + pose proof (length_removelast_le (replace_SLASH_REGEX (trim str))). lia.
Qed.

(** ** The span of the error line *)

Lemma charAt_outside (text : jsstring) (i : Z) :
  i < 0 \/ str_length text <= i -> charAt text i = [].
Proof.
  unfold charAt, str_length. intros H.
  destruct (Z.ltb_spec i 0) as [_|Hi]; [reflexivity|].
  rewrite lookup_ge_None_2 by lia. reflexivity.
Qed.

Lemma nonstop_inside (text : jsstring) (i : Z) :
  isStop (charAt text i) = false -> 0 <= i < str_length text.
Proof.
  intros H. destruct (Z.lt_ge_cases i 0) as [Hn|Hn];
    [rewrite charAt_outside in H by lia; discriminate|].
  destruct (Z.lt_ge_cases i (str_length text)) as [Hl|Hl]; [lia|].
  rewrite charAt_outside in H by lia. discriminate.
Qed.

Lemma scanBackward_stop (text : jsstring) (i : nat) (start : Z) :
  isStop (charAt text (Z.of_nat i)) = true -> scanBackward text i start = start.
Proof. intros H. destruct i; cbn [scanBackward]; rewrite H; reflexivity. Qed.

(** The backward scan from a character that is no stop character ends at
    the first character of the run it is in. *)
Lemma scanBackward_run (text : jsstring) (i : nat) (start : Z) :
  isStop (charAt text (Z.of_nat i)) = false ->
  0 <= scanBackward text i start <= Z.of_nat i
  /\ (forall j, scanBackward text i start <= j <= Z.of_nat i ->
        isStop (charAt text j) = false)
  /\ (scanBackward text i start = 0
      \/ isStop (charAt text (scanBackward text i start - 1)) = true).
Proof.
  revert start; induction i as [|i IH]; intros start H; cbn [scanBackward]; rewrite H.
  - split; [cbn; lia|]. split; [|left; reflexivity].
    intros j Hj. replace j with (Z.of_nat 0) by (cbn in *; lia). exact H.
  - destruct (isStop (charAt text (Z.of_nat i))) eqn:Hi.
    + rewrite (scanBackward_stop text i _ Hi). split; [lia|]. split.
      * intros j Hj. replace j with (Z.of_nat (S i)) by lia. exact H.
      * right. replace (Z.of_nat (S i) - 1) with (Z.of_nat i) by lia. exact Hi.
    + destruct (IH (Z.of_nat (S i)) eq_refl) as (Hr & Hall & Hb).
      split; [lia|]. split; [|exact Hb].
      intros j Hj. destruct (Z.eq_dec j (Z.of_nat (S i))) as [->|Hne]; [exact H|].
      apply Hall. lia.
Qed.

(** The forward scan counts the characters up to the next stop character;
    the end of the text counts as one. *)
Lemma scanForward_run (text : jsstring) (n : nat) (j len : Z) :
  n = Z.to_nat (str_length text - j + 1) ->
  len <= scanForward text n j len
  /\ (forall i, j <= i < j + (scanForward text n j len - len) ->
        isStop (charAt text i) = false)
  /\ isStop (charAt text (j + (scanForward text n j len - len))) = true.
Proof.
  revert j len; induction n as [|n IH]; intros j len Hn; cbn [scanForward].
  - split; [lia|]. split; [intros i Hi; lia|].
    replace (j + (len - len)) with j by lia.
    rewrite charAt_outside by lia. reflexivity.
  - destruct (isStop (charAt text j)) eqn:Hj.
    + split; [lia|]. split; [intros i Hi; lia|].
      replace (j + (len - len)) with j by lia. exact Hj.
    + destruct (IH (j + 1) (len + 1)) as (Hr & Hall & Hstop); [lia|].
      split; [lia|]. split.
      * intros i Hi. destruct (Z.eq_dec i j) as [->|Hne]; [exact Hj|].
        apply Hall. lia.
      * replace (j + (scanForward text n (j + 1) (len + 1) - len))
          with (j + 1 + (scanForward text n (j + 1) (len + 1) - (len + 1))) by lia.
        exact Hstop.
Qed.

(** When the reported column points at a character that is no stop
    character, the span is the token around it: the longest run of such
    characters that contains the column, bounded on each side by a stop
    character or an end of the line. *)
Theorem errorSpan_token (text : jsstring) (c : Z) :
  0 <= c ->
  isStop (charAt text c) = false ->
  exists s len,
    errorSpan text (Some c) = (Some s, len)
    /\ 0 <= s <= c
    /\ c < s + len <= str_length text
    /\ (forall i, s <= i < s + len -> isStop (charAt text i) = false)
    /\ (s = 0 \/ isStop (charAt text (s - 1)) = true)
    /\ isStop (charAt text (s + len)) = true.
Proof.
  intros Hc Hns. unfold errorSpan.
  destruct (Z.geb_spec c 0) as [_|?]; [|lia].
  assert (Hns' : isStop (charAt text (Z.of_nat (Z.to_nat c))) = false)
    by (rewrite Z2Nat.id by lia; exact Hns).
  destruct (scanBackward_run text (Z.to_nat c) c Hns') as (Hr & Hall & Hb).
  rewrite Z2Nat.id in Hr, Hall by lia.
  set (s := scanBackward text (Z.to_nat c) c) in *.
  destruct (scanForward_run text (Z.to_nat (str_length text - s + 1)) s 0 eq_refl)
    as (Hl & Hfw & Hstop).
  set (len := scanForward text _ s 0) in *.
  rewrite Z.sub_0_r in Hfw, Hstop.
  assert (Hcover : c < s + len).
  { destruct (Z.lt_ge_cases c (s + len)) as [?|Hge]; [assumption|].
    rewrite Hall in Hstop by lia. discriminate. }
  assert (Hend : s + len <= str_length text).
  { assert (Hin : s <= s + len - 1 < s + len) by lia.
    pose proof (nonstop_inside text (s + len - 1) (Hfw _ Hin)). lia. }
  destruct (Z.eqb_spec len 0) as [?|_]; [lia|]. cbn [andb].
  exists s, len. repeat split; try assumption; lia.
Qed.

Lemma errorSpan_token_witness :
  exists s len,
    errorSpan (lit "  color: red;") (Some 10) = (Some s, len)
    /\ 0 <= s <= 10
    /\ 10 < s + len <= str_length (lit "  color: red;")
    /\ (forall i, s <= i < s + len -> isStop (charAt (lit "  color: red;") i) = false)
    /\ (s = 0 \/ isStop (charAt (lit "  color: red;") (s - 1)) = true)
    /\ isStop (charAt (lit "  color: red;") (s + len)) = true.
Proof.
  apply (errorSpan_token (lit "  color: red;") 10); [lia|reflexivity].
Defined.

(** When the reported column points at a stop character, or past the end
    of the line, the span is the one character before the column; at column
    0 it is empty. *)
Theorem errorSpan_on_stop (text : jsstring) (c : Z) :
  0 <= c ->
  isStop (charAt text c) = true ->
  errorSpan text (Some c) = if c >? 0 then (Some (c - 1), 1) else (Some c, 0).
Proof.
  intros Hc Hst. unfold errorSpan.
  destruct (Z.geb_spec c 0) as [_|?]; [|lia].
  rewrite scanBackward_stop by (rewrite Z2Nat.id by lia; exact Hst).
  assert (Hf : scanForward text (Z.to_nat (str_length text - c + 1)) c 0 = 0).
  { destruct (Z.to_nat (str_length text - c + 1)); cbn [scanForward];
      [|rewrite Hst]; reflexivity. }
  rewrite Hf. cbn [Z.eqb andb]. destruct (c >? 0); reflexivity.
Qed.

Lemma errorSpan_on_stop_witness :
  errorSpan (lit "  color: red;") (Some 12)
  = if 12 >? 0 then (Some (12 - 1), 1) else (Some 12, 0).
Proof. apply (errorSpan_on_stop (lit "  color: red;") 12); [lia|reflexivity]. Defined.

(** ** [loadDiagnostic], further *)

Lemma jsstring_eqb_neq (a b : jsstring) : jsstring_eqb a b = false <-> a <> b.
Proof.
  rewrite <- jsstring_eqb_eq. destruct (jsstring_eqb a b); split; congruence.
Qed.

(** The diagnostic names the error's own file, unless the error has none
    or names "stdin": then it names the file the caller passed. Without any
    file it has no path, and the language stays "scss". The display path is
    [formatFileName] of the file named. *)
Theorem loadDiagnostic_file (context : PluginCtx) (sassError : LegacyException)
    (filePath : option jsstring) :
  exists d,
    returned (loadDiagnostic (Some context) (Some sassError) filePath) = Some d
    /\ (forall f, file sassError = Some f -> f <> lit "stdin" ->
          absFilePath d = Some f)
    /\ (file sassError = None \/ file sassError = Some (lit "stdin") ->
          absFilePath d = filePath)
    /\ relFilePath d = formatFileName (config_rootDir context) <$> absFilePath d
    /\ (absFilePath d = None -> language d = lit "scss" /\ lines d = []).
Proof.
  rewrite loadDiagnostic_some. cbn [returned]. eexists. split; [reflexivity|].
  assert (Habs : absFilePath (fst (diagnosticOf context sassError filePath))
                 = errorFilePath sassError filePath).
  { unfold diagnosticOf. destruct (errorFilePath sassError filePath) as [p|];
      [|reflexivity].
    destruct (line sassError) as [n|]; [|reflexivity].
    destruct (n - 1 >? -1); [|reflexivity].
    destruct (fs_readFileSync context p); reflexivity. }
  split; [|split; [|split]].
  - intros f Hf Hne. rewrite Habs. unfold errorFilePath. rewrite Hf.
    apply jsstring_eqb_neq in Hne. rewrite Hne. reflexivity.
  - intros H. rewrite Habs. unfold errorFilePath.
    destruct H as [-> | ->]; reflexivity.
  - unfold diagnosticOf. destruct (errorFilePath sassError filePath) as [p|];
      [|reflexivity].
    destruct (line sassError) as [n|]; [|reflexivity].
    destruct (n - 1 >? -1); [|reflexivity].
    destruct (fs_readFileSync context p); reflexivity.
  - rewrite Habs. unfold diagnosticOf. intros ->. split; reflexivity.
Qed.

Lemma contextLines_nonempty (srcLines : list jsstring) (n : Z) (column : option Z) :
  contextLines srcLines n (n - 1) column <> [].
Proof. rewrite contextLines_shape. destruct (n - 1 >? 0); discriminate. Qed.

(** The diagnostic carries source lines exactly when a file is named, the
    error's line number is at least 1 and the file can be read; the [catch]
    block prints exactly when such a read fails. *)
Theorem loadDiagnostic_lines_iff (context : PluginCtx) (sassError : LegacyException)
    (filePath : option jsstring) :
  exists d,
    returned (loadDiagnostic (Some context) (Some sassError) filePath) = Some d
    /\ (lines d <> []
        <-> exists p n sourceText,
              errorFilePath sassError filePath = Some p
              /\ line sassError = Some n /\ 1 <= n
              /\ fs_readFileSync context p = inl sourceText)
    /\ (console_error (loadDiagnostic (Some context) (Some sassError) filePath) <> []
        <-> exists p n e,
              errorFilePath sassError filePath = Some p
              /\ line sassError = Some n /\ 1 <= n
              /\ fs_readFileSync context p = inr e).
Proof.
  rewrite loadDiagnostic_some. cbn [returned console_error].
  eexists. split; [reflexivity|]. unfold diagnosticOf.
  destruct (errorFilePath sassError filePath) as [p|].
  2:{ cbn. split; split; try congruence; intros (? & ? & ? & ? & _); discriminate. }
  destruct (line sassError) as [n|].
  2:{ cbn. split; split; try congruence; intros (? & ? & ? & _ & ? & _); discriminate. }
  destruct (Z.gtb_spec (n - 1) (-1)) as [Hn|Hn].
  2:{ cbn. split; split; try congruence; intros (? & ? & ? & _ & [= <-] & ? & _); lia. }
  destruct (fs_readFileSync context p) as [sourceText|e] eqn:Hr; cbn [fst snd lines].
  - split; split.
    + intros _. exists p, n, sourceText. repeat split; try reflexivity; try assumption. lia.
    + intros _. apply contextLines_nonempty.
    + congruence.
    + intros (p' & n' & e & [= <-] & _ & _ & Hr'). congruence.
  - split; split.
    + congruence.
    + intros (p' & n' & t & [= <-] & _ & _ & Hr'). congruence.
    + intros _. exists p, n, e. repeat split; try reflexivity; try assumption. lia.
    + intros _. discriminate.
Qed.



(** ** [getModuleId], further *)

Lemma specifierRemainder_cases (s : jsstring) :
  specifierRemainder s
  = match s with
    | c :: r => if (c =? 126)%N then r else s
    | [] => []
    end.
Proof.
  unfold specifierRemainder. change (lit "~") with [126%N].
  rewrite substring_from_1. destruct s as [|c r]; [reflexivity|].
  cbn [startsWith]. rewrite (N.eqb_sym 126 c). destruct (c =? 126)%N; reflexivity.
Qed.

(** [getModuleId] by the segments of the remainder. *)
Lemma getModuleId_segments (s : jsstring) :
  getModuleId s
  = match split 47 (specifierRemainder s) with
    | a :: b :: more =>
        if startsWith (lit "@") (specifierRemainder s)
        then {| moduleId := Some (a ++ lit "/" ++ b);
                filePath := Some (join (lit "/") more) |}
        else {| moduleId := Some a;
                filePath := Some (join (lit "/") (b :: more)) |}
    | [a] => {| moduleId := Some a; filePath := Some [] |}
    | [] => {| moduleId := Some []; filePath := Some [] |}
    end.
Proof.
  rewrite getModuleId_splitModuleSpecifier. unfold splitModuleSpecifier.
  rewrite <- specifierRemainder_cases. change (lit "@") with [64%N].
  destruct (split 47 (specifierRemainder s)) as [|a [|b more]]; try reflexivity.
  destruct (specifierRemainder s) as [|c r]; [reflexivity|].
  cbn [startsWith]. rewrite (N.eqb_sym 64 c), andb_true_r. reflexivity.
Qed.

(** The two parts that [getModuleId] returns make up the specifier: the
    remainder after "~" is the module id alone, with an empty file path, or
    the module id, a slash and the file path. *)
Theorem getModuleId_parts (s : jsstring) :
  exists m f,
    getModuleId s = {| moduleId := Some m; filePath := Some f |}
    /\ ((specifierRemainder s = m /\ f = [])
        \/ specifierRemainder s = m ++ lit "/" ++ f).
Proof.
  rewrite getModuleId_segments.
  pose proof (join_split 47 (specifierRemainder s)) as Hj.
  pose proof (split_nonempty 47 (specifierRemainder s)) as Hn.
  change (lit "/") with [47%N].
  destruct (split 47 (specifierRemainder s)) as [|a [|b more]]; [contradiction| |].
  - exists a, []. split; [reflexivity|]. left. split; [symmetry; exact Hj|reflexivity].
  - destruct (startsWith (lit "@") (specifierRemainder s)).
    + eexists _, _. split; [reflexivity|]. destruct more as [|c more].
      * left. split; [symmetry; exact Hj|reflexivity].
      * right. rewrite <- Hj.
        change (join [47%N] (a :: b :: c :: more))
          with (a ++ [47%N] ++ b ++ [47%N] ++ join [47%N] (c :: more)).
        rewrite <- !app_assoc. reflexivity.
    + eexists _, _. split; [reflexivity|]. right. rewrite <- Hj. reflexivity.
Qed.

(** The module id of a specifier that does not start with "@" holds no
    slash; that of a scoped specifier with a slash is its first two segments,
    the first starting with "@", with the one slash between them; a scoped
    specifier without a slash is its own module id. *)
Theorem getModuleId_moduleId_shape (s : jsstring) :
  exists m,
    moduleId (getModuleId s) = Some m
    /\ (startsWith (lit "@") (specifierRemainder s) = false -> ~ In 47%N m)
    /\ (startsWith (lit "@") (specifierRemainder s) = true ->
        ~ In 47%N (specifierRemainder s) -> m = specifierRemainder s)
    /\ (startsWith (lit "@") (specifierRemainder s) = true ->
        In 47%N (specifierRemainder s) ->
        exists a b, m = a ++ lit "/" ++ b /\ ~ In 47%N a /\ ~ In 47%N b
                    /\ startsWith (lit "@") a = true).
Proof.
  rewrite getModuleId_segments.
  pose proof (split_no_sep 47 (specifierRemainder s)) as Hf.
  pose proof (split_nonempty 47 (specifierRemainder s)) as Hn.
  pose proof (join_split 47 (specifierRemainder s)) as Hj.
  destruct (split 47 (specifierRemainder s)) as [|a [|b more]] eqn:E; [contradiction| |].
  - exists a. split; [reflexivity|].
    inversion Hf as [|? ? Ha _]; subst. cbn [join] in Hj. rewrite <- Hj.
    split; [intros _; exact Ha|]. split; [reflexivity|]. intros _ Hin. contradiction.
  - inversion Hf as [|? ? Ha Hf']; subst. inversion Hf' as [|? ? Hb _]; subst.
    assert (Hin : In 47%N (specifierRemainder s)).
    { rewrite <- Hj. cbn [join]. apply in_or_app. right. left. reflexivity. }
    destruct (startsWith (lit "@") (specifierRemainder s)) eqn:Hat.
    + exists (a ++ lit "/" ++ b). split; [reflexivity|].
      split; [discriminate|]. split; [intros _ H; contradiction|].
      intros _ _. exists a, b. repeat split; try assumption.
      rewrite <- Hj in Hat. change (lit "@") with [64%N] in *.
      destruct a as [|c a]; [discriminate Hat|].
      cbn [join app startsWith] in Hat. cbn [startsWith].
      apply andb_true_iff in Hat as [-> _]. reflexivity.
    + exists a. split; [reflexivity|]. split; [intros _; exact Ha|].
      split; discriminate.
Qed.

(** ** The module importer *)

Lemma split_first_nonempty (s : jsstring) :
  match split 47 s with
  | [] :: _ => s = [] \/ exists r, s = 47%N :: r
  | (c :: _) :: _ => exists r, s = c :: r /\ c <> 47%N
  | [] => False
  end.
Proof.
  destruct s as [|c s]; [left; reflexivity|]. cbn [split].
  destruct (N.eqb_spec c 47) as [->|Hne]; [right; eauto|].
  pose proof (split_nonempty 47 s) as Hn.
  destruct (split 47 s) as [|seg segs]; [contradiction|]. eauto.
Qed.

Lemma specifierRemainder_tilde (r : jsstring) : specifierRemainder (126%N :: r) = r.
Proof. rewrite specifierRemainder_cases. reflexivity. Qed.

(** The module id of "~" followed by [rest] starts with the first
    character of [rest], unless that is a slash or [rest] is empty. *)
Lemma getModuleId_head (rest : jsstring) :
  exists m,
    moduleId (getModuleId (126%N :: rest)) = Some m
    /\ match m with
       | [] => rest = [] \/ exists r, rest = 47%N :: r
       | c :: _ => exists r, rest = c :: r /\ c <> 47%N
       end.
Proof.
  rewrite getModuleId_segments, specifierRemainder_tilde.
  pose proof (split_first_nonempty rest) as Hfirst.
  destruct (split 47 rest) as [|a [|b more]]; [destruct Hfirst| |].
  - exists a. split; [reflexivity|]. destruct a; exact Hfirst.
  - destruct (startsWith (lit "@") rest) eqn:Hat.
    + exists (a ++ lit "/" ++ b). split; [reflexivity|].
      destruct a as [|c a]; [|exact Hfirst].
      destruct Hfirst as [->|[r ->]]; discriminate Hat.
    + exists a. split; [reflexivity|]. destruct a; exact Hfirst.
Qed.

Lemma filePath_some (s : jsstring) : exists f, filePath (getModuleId s) = Some f.
Proof.
  rewrite getModuleId_segments.
  destruct (split 47 (specifierRemainder s)) as [|a [|b more]]; eauto.
  destruct (startsWith (lit "@") (specifierRemainder s)); eauto.
Qed.

(** The importer asks the host's resolver exactly for a string that starts
    with "~" and goes on with a character other than "/", and it asks for the
    module id that [getModuleId] gives, with the file path as the containing
    file; for every other value (no string, no "~", "~" alone, "~/...") it
    declines at once, with the one call [done(null)]. *)
Theorem moduleImporter_asks (path : NodePath) (context : PluginCtx) (url : val) :
  match moduleImporter path context url with
  | Pending q _ =>
      exists c r,
        url = VStr (126%N :: c :: r) /\ c <> 47%N
        /\ moduleId (getModuleId (126%N :: c :: r)) = Some (query_moduleId q)
        /\ filePath (getModuleId (126%N :: c :: r)) = query_containingFile q
  | Returned calls =>
      calls = [DoneNull]
      /\ forall c r, url = VStr (126%N :: c :: r) -> c = 47%N
  end.
Proof.
  unfold moduleImporter.
  destruct url as [| | | |u| |]; try (split; [reflexivity|discriminate]).
  change (lit "~") with [126%N].
  destruct u as [|t rest]; [split; [reflexivity|discriminate]|].
  cbn [startsWith]. destruct (N.eqb_spec 126 t) as [<-|Hne].
  2:{ cbn [andb]. split; [reflexivity|]. intros c r [= E _]. congruence. }
  cbn [andb]. cbv zeta.
  destruct (getModuleId_head rest) as (m & Hm & Hshape). rewrite Hm.
  destruct m as [|c mid].
  - split; [reflexivity|]. intros c r [= ->].
    destruct Hshape as [H|[r' [= H _]]]; [discriminate H|exact H].
  - destruct Hshape as (r & -> & Hc). exists c, r.
    cbn [query_moduleId query_containingFile]. auto.
Qed.

(** Once the importer has asked the resolver, [done] is called exactly once
    however the promise settles: with the error when it is rejected, with
    [null] when the answer has no package directory, and otherwise with the
    host-normalised join of the package directory and the file path of the
    specifier. *)
Theorem moduleImporter_settles (path : NodePath) (context : PluginCtx)
    (url : jsstring) (q : ModuleQuery) (k : Settled -> list DoneArg) :
  moduleImporter path context (VStr url) = Pending q k ->
  (forall settled, length (k settled) = 1%nat)
  /\ (forall err, k (Rejected err) = [DoneError err])
  /\ k (Fulfilled None) = [DoneNull]
  /\ k (Fulfilled (Some [])) = [DoneNull]
  /\ (forall s host_normalizePath dir,
        sys context = Some s -> sys_normalizePath s = Some host_normalizePath ->
        dir <> [] ->
        exists f,
          filePath (getModuleId url) = Some f
          /\ k (Fulfilled (Some dir))
             = [DoneFile (host_normalizePath (path_join path dir f))]).
Proof.
  unfold moduleImporter.
  destruct (startsWith (lit "~") url); [|discriminate]. cbv zeta.
  destruct (moduleId (getModuleId url)) as [[|c mid]|]; try discriminate.
  intros [= <- <-]. repeat split.
  - intros [[[|d dir]|]|err]; try reflexivity. cbn [importerHandlers].
    destruct (sys context) as [[[?|] ?]|]; reflexivity.
  - intros s norm dir Hs Hn Hdir.
    destruct (filePath_some url) as [f Hf]. exists f. split; [exact Hf|].
    destruct dir as [|d dir]; [contradiction|]. cbn [importerHandlers].
    rewrite Hs, Hf. destruct s as [n ?]. cbn in Hn. subst n. reflexivity.
Qed.

Lemma moduleImporter_settles_witness :
  exists q k,
    moduleImporter posix_path sample_ctx (VStr (lit "~@scope/pkg/src/a.scss"))
    = Pending q k
    /\ k (Fulfilled (Some (lit "/proj/node_modules/@scope/pkg")))
       = [DoneFile (lit "/proj/node_modules/@scope/pkg/src/a.scss")]
    /\ k (Rejected (lit "not found")) = [DoneError (lit "not found")].
Proof.
  eexists _, _. split; [reflexivity|].
  pose proof (moduleImporter_settles posix_path sample_ctx
                (lit "~@scope/pkg/src/a.scss") _ _ eq_refl) as (_ & Hr & _ & _ & Hf).
  split; [|apply Hr].
  destruct (Hf _ _ (lit "/proj/node_modules/@scope/pkg") eq_refl eq_refl
              ltac:(discriminate)) as (f & Hpath & Hdone).
  rewrite Hdone. injection Hpath as <-. vm_compute. reflexivity.
Defined.

(** ** [getRenderOptions]: what the result holds *)

Lemma join_empty_separator (xs : list jsstring) : join [] xs = concat xs.
Proof.
  induction xs as [|x [|y r] IH]; [reflexivity| |].
  - cbn [join concat]. rewrite app_nil_r. reflexivity.
  - change (join [] (x :: y :: r)) with (x ++ [] ++ join [] (y :: r)).
    rewrite IH. reflexivity.
Qed.

Lemma array_items_typed (h ext : heap) (v : val) :
  optional_string_array h v = true -> array_items (h ++ ext) v = array_items h v.
Proof.
  unfold optional_string_array, array_items. destruct v; try reflexivity.
  destruct (h !! l) as [c|] eqn:E; [|discriminate].
  intros _. rewrite (lookup_app_l_Some _ _ _ _ E). reflexivity.
Qed.

Lemma array_items_allocated (h ext : heap) (v : val) :
  allocated h v = true -> array_items (h ++ ext) v = array_items h v.
Proof.
  unfold allocated, array_items. destruct v; try reflexivity.
  intros H%bool_decide_eq_true. rewrite lookup_app_l by exact H. reflexivity.
Qed.

Section RenderOptionsContents.

Variable path : NodePath.

Lemma absoluteIncludePath_items (context : PluginCtx) (items out : list val) :
  map_items (absoluteIncludePath path context) items = Ok out ->
  out = VStr <$> (absolutePath path context <$> strings_of items).
Proof.
  revert out; induction items as [|x items IH]; intros out; cbn [map_items].
  - intros [= <-]. reflexivity.
  - destruct (absoluteIncludePath path context x) as [y|e] eqn:Ex; [|discriminate].
    destruct (map_items _ items) as [ys|e]; [|discriminate].
    intros [= <-]. rewrite (IH ys eq_refl).
    unfold absoluteIncludePath in Ex. destruct x; try discriminate.
    unfold strings_of. cbn [fmap list_fmap]. f_equal. f_equal.
    unfold absolutePath.
    destruct (path_isAbsolute path s); injection Ex as <-; reflexivity.
Qed.

Lemma importStatement_items (context : PluginCtx) (ro : loc) (h1 : heap) (b : bool)
    (items stmts : list val) :
  prop_of h1 ro "indentedSyntax" = VBool b ->
  map_items (importStatement path context ro h1) items = Ok stmts ->
  join_strings stmts = concat (importLine path context b <$> strings_of items)
  /\ forallb is_VStr items = true.
Proof.
  intros Hb. unfold join_strings. rewrite join_empty_separator.
  revert stmts; induction items as [|x items IH]; intros stmts; cbn [map_items].
  - intros [= <-]. split; reflexivity.
  - destruct (importStatement path context ro h1 x) as [y|e] eqn:Ex; [|discriminate].
    destruct (map_items _ items) as [ys|e]; [|discriminate].
    intros [= <-]. destruct (IH ys eq_refl) as [IHj IHs].
    unfold importStatement in Ex. destruct x; try discriminate.
    split; [|exact IHs].
    unfold strings_of in *. cbn [fmap list_fmap concat].
    rewrite <- IHj. f_equal.
    rewrite get_prop_run in Ex. cbn [fst] in Ex. rewrite Hb in Ex.
    injection Ex as <-. unfold importLine.
    destruct (path_isAbsolute path s); destruct b; reflexivity.
Qed.

Lemma absoluteIncludePath_strings (context : PluginCtx) (items out : list val) :
  map_items (absoluteIncludePath path context) items = Ok out ->
  forallb is_VStr items = true.
Proof.
  revert out; induction items as [|x items IH]; intros out; cbn [map_items forallb].
  - reflexivity.
  - destruct (absoluteIncludePath path context x) as [y|e] eqn:Ex; [|discriminate].
    destruct (map_items _ items) as [ys|e]; [|discriminate].
    intros _. rewrite (IH ys eq_refl). destruct x; try discriminate Ex. reflexivity.
Qed.

Lemma installImporter_user (h0 : heap) (rp : gmap string val) (rest : list cell)
    (context : PluginCtx) :
  installImporter (length h0) context (h0 ++ Obj rp :: rest)
  = if sys_has_resolveModuleId context then
      (Ok tt,
       h0 ++ Obj (<["importer" := VRef (length h0 + S (length rest))%nat]> rp)
          :: (rest ++ [Arr (user_importers (h0 ++ Obj rp :: (rest ++ [Arr []]))
                              (default VUndefined (rp !! "importer"))
                            ++ [VFun ModuleImporter])]))
    else (Ok tt, h0 ++ Obj rp :: rest).
Proof.
  rewrite installImporter_run.
  destruct (sys_has_resolveModuleId context); [|reflexivity]. cbv zeta.
  destruct (default VUndefined (rp !! "importer")); reflexivity.
Qed.

Lemma getRenderOptions_contents (h0 : heap) (opts : loc) (props : gmap string val)
    (sourceText fileName : jsstring) (context : PluginCtx) :
  h0 !! opts = Some (Obj props) ->
  exists rp rest,
    snd (getRenderOptions path opts sourceText fileName context h0)
    = h0 ++ Obj rp :: rest
    /\ match fst (getRenderOptions path opts sourceText fileName context h0) with
       | Ok ro =>
           ro = length h0
           /\ (forall k, ~ In k managed_keys -> rp !! k = props !! k)
           /\ rp !! "indentedSyntax"
              = Some (VBool (endsWith_ci (lit ".sass") fileName))
           /\ (exists ext,
                  rp !! "data"
                  = Some (VStr (concat
                                  (importLine path context
                                     (endsWith_ci (lit ".sass") fileName)
                                   <$> strings_of
                                         (default []
                                            (array_items (h0 ++ ext)
                                               (default VUndefined
                                                  (props !! "injectGlobalPaths")))))
                                ++ sourceText))
                  /\ forallb is_VStr
                       (default []
                          (array_items (h0 ++ ext)
                             (default VUndefined (props !! "injectGlobalPaths"))))
                     = true)
           /\ (exists ext li,
                  rp !! "includePaths" = Some (VRef li)
                  /\ forallb is_VStr
                       (default []
                          (array_items (h0 ++ ext)
                             (default VUndefined (props !! "includePaths")))
                        ++ [VStr (path_dirname path fileName)])
                     = true
                  /\ (h0 ++ Obj rp :: rest) !! li
                     = Some (Arr (VStr <$>
                                    (absolutePath path context
                                     <$> strings_of
                                           (default []
                                              (array_items (h0 ++ ext)
                                                 (default VUndefined
                                                    (props !! "includePaths")))
                                            ++ [VStr (path_dirname path fileName)])))))
           /\ (if sys_has_resolveModuleId context
               then exists ext lm,
                   rp !! "importer" = Some (VRef lm)
                   /\ (length h0 < lm)%nat
                   /\ (h0 ++ Obj rp :: rest) !! lm
                      = Some (Arr (user_importers (h0 ++ ext)
                                     (default VUndefined (props !! "importer"))
                                   ++ [VFun ModuleImporter]))
               else rp !! "importer" = props !! "importer")
       | Throw _ => True
       end.
Proof.
  intros E. unfold getRenderOptions, bind.
  rewrite (copyOptions_run h0 opts props sourceText E). cbv beta iota.
  run set_prop_run. run resolveIncludePaths_run. cbn [app length].
  rewrite (prop_of_app _ _ _ _ "includePaths" E).
  destruct (map_items _ _) as [incl|e] eqn:Hinc; cbv beta iota.
  2:{ cbn [fst snd]. eexists _, _. split; [reflexivity|exact I]. }
  pose proof (absoluteIncludePath_strings _ _ _ Hinc) as Hstr.
  apply absoluteIncludePath_items in Hinc.
  run injectGlobals_run. cbn [app length].
  rewrite (prop_of_app _ _ _ _ "injectGlobalPaths" E).
  destruct (Z.of_nat (length _) >? 0) eqn:Hlen;
    [match goal with
     | |- context [map_items ?f ?l] => destruct (map_items f l) as [stmts|e] eqn:Hglob
     end|].
  2:{ cbn [fst snd]. eexists _, _. split; [reflexivity|exact I]. }
  1: apply (importStatement_items _ _ _ (endsWith_ci (lit ".sass") fileName)) in Hglob;
    [|rewrite prop_of_renderOpts; lookup_key].
  all: cbv beta iota.
  all: run delete_prop_run; run delete_prop_run; run installImporter_user.
  all: cbn [app length].
  all: destruct (sys_has_resolveModuleId context); cbv beta iota.
  all: run silenceLegacyApi_run.
  all: cbn [app length].
  all: repeat first
         [ rewrite lookup_insert_eq
         | rewrite lookup_delete_eq
         | rewrite lookup_insert_ne by done
         | rewrite lookup_delete_ne by done ].
  all: destruct (nullish (default VUndefined (props !! "silenceDeprecations"))) eqn:Hnull;
    [|match goal with
      | |- context [spread_in ?h ?v] => destruct (spread_in h v) as [sil|e] eqn:Hsp
      end].
  all: cbv beta iota; unfold ret; cbn [fst snd]; eexists _, _; (split; [reflexivity|]).
  all: try exact I.
  all: split; [reflexivity|].
  all: split;
    [intros k Hk; cbn [managed_keys In] in Hk;
     repeat first
       [ rewrite lookup_insert_ne by (intros <-; tauto)
       | rewrite lookup_delete_ne by (intros <-; tauto) ];
     reflexivity|].
  all: split; [lookup_key|].
  all: split;
    [eexists;
     repeat first
       [ rewrite lookup_insert_eq
       | rewrite lookup_insert_ne by done
       | rewrite lookup_delete_ne by done ];
     first
       [ destruct Hglob as [Hjoin Hstrs]; split; [rewrite Hjoin; reflexivity|exact Hstrs]
       | match type of Hlen with
         | context [array_items (?h ++ ?e) ?v] =>
             instantiate (1 := e);
             destruct (default [] (array_items (h ++ e) v));
             [split; reflexivity|discriminate Hlen]
         end ]
    |].
  all: split;
    [eexists _, _; split; [lookup_key|]; split; [exact Hstr|];
     rewrite frame_lookup_rest; rewrite Hinc; reflexivity
    |].
  all: first
    [ eexists _, _; split; [lookup_key|]; split; [lia|];
      rewrite frame_lookup_rest; reflexivity
    | lookup_key ].
Qed.

End RenderOptionsContents.

Lemma user_importers_allocated (h ext : heap) (v : val) :
  allocated h v = true -> user_importers (h ++ ext) v = user_importers h v.
Proof.
  intros H. unfold user_importers. rewrite (array_items_allocated h ext v H).
  reflexivity.
Qed.

Lemma strings_of_snoc (items : list val) (s : jsstring) :
  strings_of (items ++ [VStr s]) = strings_of items ++ [s].
Proof. unfold strings_of. rewrite fmap_app. reflexivity. Qed.

(** The call on well-typed options: it returns a new object, and what the
    object holds. *)
Lemma getRenderOptions_result (path : NodePath) (h : heap) (opts : loc)
    (sourceText fileName : jsstring) (context : PluginCtx) :
  well_typed_options h opts = true ->
  exists rp rest,
    getRenderOptions path opts sourceText fileName context h
    = (Ok (length h), h ++ Obj rp :: rest)
    /\ (forall k, ~ In k managed_keys -> default VUndefined (rp !! k) = prop_of h opts k)
    /\ rp !! "indentedSyntax" = Some (VBool (endsWith_ci (lit ".sass") fileName))
    /\ rp !! "data"
       = Some (VStr (concat
                       (importLine path context (endsWith_ci (lit ".sass") fileName)
                        <$> strings_of
                              (default []
                                 (array_items h (prop_of h opts "injectGlobalPaths"))))
                     ++ sourceText))
    /\ array_items (h ++ Obj rp :: rest) (default VUndefined (rp !! "includePaths"))
       = Some (VStr <$>
                 (absolutePath path context
                  <$> strings_of
                        (default [] (array_items h (prop_of h opts "includePaths")))
                      ++ [path_dirname path fileName]))
    /\ (if sys_has_resolveModuleId context
        then allocated h (prop_of h opts "importer") = true ->
             array_items (h ++ Obj rp :: rest) (default VUndefined (rp !! "importer"))
             = Some (user_importers h (prop_of h opts "importer")
                     ++ [VFun ModuleImporter])
        else default VUndefined (rp !! "importer") = prop_of h opts "importer").
Proof.
  intros Hwt. destruct (well_typed_is_object h opts Hwt) as [props E].
  destruct (well_typed_fields h opts props E Hwt) as (Hi & Hg & _).
  destruct (getRenderOptions_run path h opts props sourceText fileName context E)
    as (rp & rest & Hsnd & Hfst).
  destruct (getRenderOptions_contents path h opts props sourceText fileName context E)
    as (rp' & rest' & Hsnd' & Hcont).
  rewrite Hsnd in Hsnd'. apply app_inv_head in Hsnd'. injection Hsnd' as <- <-.
  destruct (getRenderOptions path opts sourceText fileName context h) as [[ro|e] h'];
    cbn [fst snd] in *; [|congruence].
  destruct Hcont as (-> & Hpass & Hind & (ext1 & Hdata & _) & (ext2 & li & Hli & _ & Hincl)
                     & Himp).
  subst h'. exists rp, rest. split; [reflexivity|].
  assert (Hprop : forall k, prop_of h opts k = default VUndefined (props !! k)).
  { intros k. unfold prop_of. rewrite E. reflexivity. }
  split; [intros k Hk; rewrite (Hpass k Hk), Hprop; reflexivity|].
  split; [exact Hind|].
  split; [rewrite Hdata, (array_items_typed h ext1 _ Hg), Hprop; reflexivity|].
  split.
  { rewrite Hli, default_Some. unfold array_items at 1. rewrite Hincl.
    rewrite (array_items_typed h ext2 _ Hi), strings_of_snoc, Hprop. reflexivity. }
  destruct (sys_has_resolveModuleId context).
  - intros Ha. destruct Himp as (ext & lm & Hlm & _ & Hitems).
    rewrite Hlm, default_Some. unfold array_items at 1. rewrite Hitems.
    rewrite Hprop in Ha |- *. rewrite (user_importers_allocated h ext _ Ha).
    reflexivity.
  - rewrite Himp, Hprop. reflexivity.
Qed.

(** Whatever the options say, the returned object's [data] is the source
    text behind one import statement per entry of [injectGlobalPaths], in
    their order: a [data] option of the user is not used, and the statements
    end as the file name says (a line feed for ".sass", else a semicolon),
    not as an [indentedSyntax] option says. *)
Theorem getRenderOptions_data (path : NodePath) (h : heap) (opts : loc)
    (sourceText fileName : jsstring) (context : PluginCtx) :
  well_typed_options h opts = true ->
  result_prop (getRenderOptions path opts sourceText fileName context h) "data"
  = Some (VStr (concat
                  (importLine path context (endsWith_ci (lit ".sass") fileName)
                   <$> strings_of
                         (default []
                            (array_items h (prop_of h opts "injectGlobalPaths"))))
                ++ sourceText)).
Proof.
  intros Hwt.
  destruct (getRenderOptions_result path h opts sourceText fileName context Hwt)
    as (rp & rest & -> & _ & _ & Hdata & _).
  unfold result_prop. cbn [fst snd]. rewrite prop_of_renderOpts, Hdata. reflexivity.
Qed.

Lemma getRenderOptions_data_witness :
  result_prop (getRenderOptions posix_path 0%nat (lit "b{}") (lit "/proj/src/a.scss")
                 sample_ctx sample_heap) "data"
  = Some (VStr (lit "@import " ++ [34%N] ++ lit "/proj/globals.scss" ++ [34%N]
                ++ lit ";b{}")).
Proof.
  rewrite (getRenderOptions_data posix_path sample_heap 0%nat (lit "b{}")
             (lit "/proj/src/a.scss") sample_ctx); [|vm_compute; reflexivity].
  vm_compute. reflexivity.
Defined.

(** The returned object's [indentedSyntax] is whether the file name ends in
    ".sass" (in any case of letters), whatever the options say. *)
Theorem getRenderOptions_indentedSyntax (path : NodePath) (h : heap) (opts : loc)
    (sourceText fileName : jsstring) (context : PluginCtx) :
  well_typed_options h opts = true ->
  result_prop (getRenderOptions path opts sourceText fileName context h)
    "indentedSyntax"
  = Some (VBool (endsWith_ci (lit ".sass") fileName)).
Proof.
  intros Hwt.
  destruct (getRenderOptions_result path h opts sourceText fileName context Hwt)
    as (rp & rest & -> & _ & Hind & _).
  unfold result_prop. cbn [fst snd]. rewrite prop_of_renderOpts, Hind. reflexivity.
Qed.

Lemma getRenderOptions_indentedSyntax_witness :
  result_prop (getRenderOptions posix_path 0%nat (lit "b{}") (lit "/proj/src/a.SASS")
                 sample_ctx sample_heap) "indentedSyntax"
  = Some (VBool true).
Proof.
  rewrite (getRenderOptions_indentedSyntax posix_path sample_heap 0%nat (lit "b{}")
             (lit "/proj/src/a.SASS") sample_ctx); [|vm_compute; reflexivity].
  vm_compute. reflexivity.
Defined.

(** Every option other than the seven the function sets or deletes ([data],
    [indentedSyntax], [includePaths], [injectGlobalPaths], [file],
    [importer], [silenceDeprecations]) reads on the returned object as on the
    user's options, and the returned object is a new one, not the user's. *)
Theorem getRenderOptions_passes_through (path : NodePath) (h : heap) (opts : loc)
    (sourceText fileName : jsstring) (context : PluginCtx) (k : string) :
  well_typed_options h opts = true ->
  ~ In k managed_keys ->
  result_prop (getRenderOptions path opts sourceText fileName context h) k
  = Some (prop_of h opts k)
  /\ fst (getRenderOptions path opts sourceText fileName context h) <> Ok opts.
Proof.
  intros Hwt Hk.
  destruct (getRenderOptions_result path h opts sourceText fileName context Hwt)
    as (rp & rest & -> & Hpass & _).
  unfold result_prop. cbn [fst snd]. rewrite prop_of_renderOpts, (Hpass k Hk).
  split; [reflexivity|]. intros [= Heq].
  destruct (well_typed_is_object h opts Hwt) as [props E].
  apply lookup_lt_Some in E. lia.
Qed.

Lemma getRenderOptions_passes_through_witness :
  result_prop (getRenderOptions posix_path 0%nat (lit "b{}") (lit "/proj/src/a.scss")
                 sample_ctx styled_heap) "outputStyle"
  = Some (VStr (lit "compressed"))
  /\ fst (getRenderOptions posix_path 0%nat (lit "b{}") (lit "/proj/src/a.scss")
            sample_ctx styled_heap) <> Ok 0%nat.
Proof.
  destruct (getRenderOptions_passes_through posix_path styled_heap 0%nat (lit "b{}")
              (lit "/proj/src/a.scss") sample_ctx "outputStyle") as [Hk Hnew].
  - vm_compute. reflexivity.
  - cbn [In managed_keys]. intuition discriminate.
  - split; [rewrite Hk; vm_compute; reflexivity|exact Hnew].
Defined.

(** The returned [includePaths] is a new array of the user's entries in their
    order and then the directory of the file, each one made absolute: kept
    when absolute, resolved against the project's root directory when not. *)
Theorem getRenderOptions_includePaths (path : NodePath) (h : heap) (opts : loc)
    (sourceText fileName : jsstring) (context : PluginCtx) :
  well_typed_options h opts = true ->
  result_items (getRenderOptions path opts sourceText fileName context h)
    "includePaths"
  = Some (VStr <$>
            (absolutePath path context
             <$> strings_of
                   (default [] (array_items h (prop_of h opts "includePaths")))
                 ++ [path_dirname path fileName])).
Proof.
  intros Hwt.
  destruct (getRenderOptions_result path h opts sourceText fileName context Hwt)
    as (rp & rest & -> & _ & _ & _ & Hincl & _).
  unfold result_items. cbn [fst snd]. rewrite prop_of_renderOpts. exact Hincl.
Qed.

Lemma getRenderOptions_includePaths_witness :
  result_items (getRenderOptions posix_path 0%nat (lit "b{}") (lit "/proj/src/a.scss")
                  sample_ctx sample_heap) "includePaths"
  = Some [VStr (lit "/proj/styles"); VStr (lit "/proj/src")].
Proof.
  rewrite (getRenderOptions_includePaths posix_path sample_heap 0%nat (lit "b{}")
             (lit "/proj/src/a.scss") sample_ctx); [|vm_compute; reflexivity].
  vm_compute. reflexivity.
Defined.

(** When the host has [resolveModuleId], the returned [importer] is a new
    array: the user's importer, or the items of the user's array of
    importers, in their order, and the module importer last. *)
Theorem getRenderOptions_importer (path : NodePath) (h : heap) (opts : loc)
    (sourceText fileName : jsstring) (context : PluginCtx) :
  well_typed_options h opts = true ->
  allocated h (prop_of h opts "importer") = true ->
  sys_has_resolveModuleId context = true ->
  result_items (getRenderOptions path opts sourceText fileName context h) "importer"
  = Some (user_importers h (prop_of h opts "importer") ++ [VFun ModuleImporter]).
Proof.
  intros Hwt Ha Hsys.
  destruct (getRenderOptions_result path h opts sourceText fileName context Hwt)
    as (rp & rest & -> & _ & _ & _ & _ & Himp).
  rewrite Hsys in Himp.
  unfold result_items. cbn [fst snd]. rewrite prop_of_renderOpts. exact (Himp Ha).
Qed.

Lemma getRenderOptions_importer_witness :
  result_items (getRenderOptions posix_path 0%nat (lit "b{}") (lit "/proj/src/a.scss")
                  sample_ctx sample_heap) "importer"
  = Some [VFun (UserFn 0); VFun ModuleImporter].
Proof.
  rewrite (getRenderOptions_importer posix_path sample_heap 0%nat (lit "b{}")
             (lit "/proj/src/a.scss") sample_ctx); vm_compute; reflexivity.
Defined.

(** When the host has no [resolveModuleId], the returned [importer] is the
    user's, untouched: no module importer is added. *)
Theorem getRenderOptions_importer_without_resolver (path : NodePath) (h : heap)
    (opts : loc) (sourceText fileName : jsstring) (context : PluginCtx) :
  well_typed_options h opts = true ->
  sys_has_resolveModuleId context = false ->
  result_prop (getRenderOptions path opts sourceText fileName context h) "importer"
  = Some (prop_of h opts "importer").
Proof.
  intros Hwt Hsys.
  destruct (getRenderOptions_result path h opts sourceText fileName context Hwt)
    as (rp & rest & -> & _ & _ & _ & _ & Himp).
  rewrite Hsys in Himp.
  unfold result_prop. cbn [fst snd]. rewrite prop_of_renderOpts, Himp. reflexivity.
Qed.

Lemma getRenderOptions_importer_without_resolver_witness :
  result_prop (getRenderOptions posix_path 0%nat (lit "b{}") (lit "/proj/src/a.scss")
                 bare_ctx sample_heap) "importer"
  = Some (VFun (UserFn 0)).
Proof.
  rewrite (getRenderOptions_importer_without_resolver posix_path sample_heap 0%nat
             (lit "b{}") (lit "/proj/src/a.scss") bare_ctx);
    vm_compute; reflexivity.
Defined.

(** An entry of [includePaths] or of [injectGlobalPaths] that is no string
    makes the call throw: nothing is returned. *)
Theorem getRenderOptions_throws (path : NodePath) (h : heap) (opts : loc)
    (props : gmap string val) (sourceText fileName : jsstring) (context : PluginCtx)
    (k : string) (items : list val) :
  h !! opts = Some (Obj props) ->
  k = "includePaths" \/ k = "injectGlobalPaths" ->
  array_items h (prop_of h opts k) = Some items ->
  forallb is_VStr items = false ->
  exists e, fst (getRenderOptions path opts sourceText fileName context h) = Throw e.
Proof.
  intros E Hk Hitems Hbad.
  destruct (getRenderOptions_contents path h opts props sourceText fileName context E)
    as (rp & rest & _ & Hcont).
  destruct (fst (getRenderOptions path opts sourceText fileName context h)) as [ro|e];
    [exfalso|eauto].
  destruct Hcont as (_ & _ & _ & (ext1 & _ & Hglob) & (ext2 & li & _ & Hincl & _) & _).
  unfold prop_of in Hitems. rewrite E in Hitems.
  destruct Hk as [-> | ->].
  - rewrite (array_items_app h ext2 _ items Hitems), default_Some in Hincl.
    rewrite forallb_app, Hbad in Hincl. discriminate Hincl.
  - rewrite (array_items_app h ext1 _ items Hitems), default_Some in Hglob.
    congruence.
Qed.

Lemma getRenderOptions_throws_witness :
  exists e,
    fst (getRenderOptions posix_path 0%nat (lit "b{}") (lit "/proj/src/a.scss")
           sample_ctx untyped_heap) = Throw e.
Proof.
  apply (getRenderOptions_throws posix_path untyped_heap 0%nat
           {[ "injectGlobalPaths" := VRef 1%nat ]} (lit "b{}") (lit "/proj/src/a.scss")
           sample_ctx "injectGlobalPaths" [VStr (lit "globals.scss"); VNum 1]);
    [reflexivity|right; reflexivity|vm_compute; reflexivity|reflexivity].
Defined.
